(** * EFA transport core: fabric context and peer endpoint

    A shallow embedding of
      mooncake-transfer-engine/src/transport/efa_transport/efa_context.cpp
      mooncake-transfer-engine/src/transport/efa_transport/efa_endpoint.cpp
    and the properties of the resource lifecycle, the memory-region registry,
    the connection state machine and the submission loop.

    Conventions of the embedding:
    - raw pointers (libfabric handles, [Transport::Slice *], [void *]) are
      numbers, [nullptr] is 0; [std::shared_ptr] is an [option];
    - every call that leaves the process (libfabric, the handshake
      transport) goes through one oracle [provider], which owns an arbitrary
      state [W]; the calls made so far are recorded in a trace, so that
      "nothing was posted" or "no handshake was sent" can be stated;
    - the reader/writer spinlocks are not modelled: every member function is
      one atomic step of a sequential program;
    - log statements are dropped. *)

From Stdlib Require Import ZArith NArith Ascii String List Lia.
From Stdlib.Strings Require Import Byte.
From stdpp Require Import base option list strings gmap.
From Equations Require Import Equations.

Local Open Scope Z_scope.

(** ** Pointers and libfabric constants *)

Definition handle := N.
Definition nullptr : handle := 0%N.
Definition is_null (h : handle) : bool := (h =? 0)%N.

(** rdma/fi_errno.h: FI_EAGAIN is EAGAIN. *)
Definition FI_EAGAIN : Z := 11.
(** rdma/fabric.h: FI_ADDR_UNSPEC is ((uint64_t) -1). *)
Definition FI_ADDR_UNSPEC : Z := 2 ^ 64 - 1.
(** rdma/fabric.h capability and access bits. *)
Definition FI_READ : Z := Z.shiftl 1 8.
Definition FI_WRITE : Z := Z.shiftl 1 9.
Definition FI_RECV : Z := Z.shiftl 1 10.
Definition FI_TRANSMIT : Z := Z.shiftl 1 11.
Definition FI_REMOTE_READ : Z := Z.shiftl 1 12.
Definition FI_REMOTE_WRITE : Z := Z.shiftl 1 13.

(** ** Hexadecimal rendering of hardware addresses *)

Module Hex.

(** [std::hex] digit of a value below 16. *)
Definition hex_digit (n : N) : ascii :=
  if (n <? 10)%N then ascii_of_N (48 + n) else ascii_of_N (87 + n).

(** [oss << std::hex << std::setw(2) << std::setfill('0') << (int)b]
    for one [uint8_t]. *)
Definition hex_of_byte (b : byte) : string :=
  let n := Byte.to_N b in
  String (hex_digit (n / 16)) (String (hex_digit (n mod 16)) EmptyString).

Fixpoint hex_of_bytes (l : list byte) : string :=
  match l with
  | [] => EmptyString
  | b :: r => hex_of_byte b +:+ hex_of_bytes r
  end.

(** The C library's [isspace] in the "C" locale. *)
Definition isspace (a : ascii) : bool :=
  let n := N_of_ascii a in
  ((n =? 32) || ((9 <=? n) && (n <=? 13)))%N.

Definition hex_val (a : ascii) : option Z :=
  let n := Z.of_N (N_of_ascii a) in
  if (48 <=? n) && (n <=? 57) then Some (n - 48)
  else if (97 <=? n) && (n <=? 102) then Some (n - 87)
  else if (65 <=? n) && (n <=? 70) then Some (n - 55)
  else None.

Fixpoint skip_space (s : string) : string :=
  match s with
  | String a r => if isspace a then skip_space r else s
  | EmptyString => s
  end.

Fixpoint strtol_digits (acc : Z) (s : string) : Z :=
  match s with
  | String a r =>
      match hex_val a with
      | Some d => strtol_digits (acc * 16 + d) r
      | None => acc
      end
  | EmptyString => acc
  end.

(** A [0x]/[0X] prefix is consumed only when a hexadecimal digit follows. *)
Definition skip_0x (s : string) : string :=
  match s with
  | String "0" (String x (String d r)) =>
      if (Ascii.eqb x "x" || Ascii.eqb x "X") && bool_decide (is_Some (hex_val d))
      then String d r else s
  | _ => s
  end.

(** [strtol(s, nullptr, 16)]: leading white space, an optional sign, an
    optional prefix, then digits up to the first character that is not
    one (the terminating NUL of [c_str()] included).  The callers pass at
    most two characters, so the [long] range is never left. *)
Definition strtol16 (s : string) : Z :=
  let s := skip_space s in
  match s with
  | String "-" r => - strtol_digits 0 (skip_0x r)
  | String "+" r => strtol_digits 0 (skip_0x r)
  | _ => strtol_digits 0 (skip_0x s)
  end.

(** The cast [(uint8_t)] of a [long]. *)
Definition to_uint8 (z : Z) : byte :=
  match Byte.of_N (Z.to_N (z mod 256)) with
  | Some b => b
  | None => x00
  end.

(** The loop [for (i = 0; i < peer_addr.size(); i += 2)] of
    [insertPeerAddr]: [substr(i, 2)] is the next two characters, or the
    last one when the length is odd. *)
Fixpoint hex_to_bytes (s : string) : list byte :=
  match s with
  | EmptyString => []
  | String a EmptyString => [to_uint8 (strtol16 (String a EmptyString))]
  | String a (String b r) =>
      to_uint8 (strtol16 (String a (String b EmptyString))) :: hex_to_bytes r
  end.

End Hex.

(** ** The outside world: libfabric and the handshake transport *)

(** [TransferMetadata::HandShakeDesc], the fields the endpoint uses. *)
Record HandShakeDesc := {
  local_nic_path : string;
  peer_nic_path : string;
  reply_msg : string;
}.

(** A default-constructed descriptor. *)
Definition empty_desc : HandShakeDesc :=
  {| local_nic_path := ""; peer_nic_path := ""; reply_msg := "" |}.

(** The calls of the two files that leave the process, with the arguments
    that are not constants. *)
Inductive Call :=
| fi_allocinfo
| fi_getinfo (hints : handle) (domain_name : string)
| fi_freeinfo (info : handle)
| fi_fabric (info : handle)
| fi_domain (fabric info : handle)
| fi_av_open (domain : handle) (count : Z)
| fi_cq_open (domain : handle) (size : Z)
| fi_close (fid : handle)
| fi_mr_reg (domain : handle) (addr : Z) (len : Z) (access : Z)
| fi_mr_key (mr : handle)
| fi_endpoint (domain info : handle)
| fi_ep_bind (ep fid : handle) (flags : Z)
| fi_enable (ep : handle)
| fi_getname (ep : handle) (len : Z)
| fi_av_insert (av : handle) (addr : list byte)
| fi_write (ep : handle) (buf : Z) (len : Z) (dest : Z) (addr : Z) (key : Z)
| sendHandshake (peer_server_name : string) (local_desc : HandShakeDesc).

(** What a call hands back: the returned integer, the pointer or number
    stored through an out-parameter, the bytes written to a buffer, and the
    descriptor filled by the handshake transport. *)
Record Reply := {
  ret : Z;
  out : N;
  out_bytes : list byte;
  out_desc : HandShakeDesc;
}.

(** What the two files take from the rest of the repository and from the
    machine they run on.  error.h (the ERR_ codes), common.h (the two
    path parsers), config.h (max_mr_size) and efa_endpoint.h (the default
    of [max_wr]) are not among the sources, so they are parameters. *)
Class Platform := {
  W : Type;
  provider : W → Call → Reply * W;
  ERR_INVALID_ARGUMENT : Z;
  ERR_REJECT_HANDSHAKE : Z;
  ERR_ENDPOINT : Z;
  ERR_CONTEXT : Z;
  getServerNameFromNicPath : string → string;
  getNicNameFromNicPath : string → string;
  (** [(size_t)globalConfig().max_mr_size] *)
  max_mr_size : Z;
  default_max_wr : Z;
}.

Section Monad.
Context `{Platform}.

(** The provider's state and the calls made so far, oldest first. *)
Record World := {
  env : W;
  trace : list Call;
}.

Definition M (A : Type) : Type := World → A * World.

#[export] Instance M_ret : MRet M := λ A a w, (a, w).
#[export] Instance M_bind : MBind M :=
  λ A B f m w, let '(a, w') := m w in f a w'.

Definition call (c : Call) : M Reply := λ w,
  let '(r, e) := provider (env w) c in
  (r, {| env := e; trace := trace w ++ [c] |}).

(** An opening call stores through its out-parameter only when it
    succeeds; after a failure the member keeps the value it had. *)
Definition out_on_success (r : Reply) (old : handle) : handle :=
  if ret r =? 0 then out r else old.

End Monad.

(** ** Objects *)

Inductive Status := INITIALIZING | UNCONNECTED | CONNECTED.

#[export] Instance Status_eq_dec : EqDecision Status.
Proof. solve_decision. Defined.

Inductive SliceStatus := PENDING | SUCCESS | FAILED.

#[export] Instance SliceStatus_eq_dec : EqDecision SliceStatus.
Proof. solve_decision. Defined.

(** [Transport::Slice], the members the two files read or write
    ([slice_length] is the member [length]). *)
Record Slice := {
  source_addr : Z;
  slice_length : Z;
  rdma_dest_addr : Z;
  rdma_dest_rkey : Z;
  status : SliceStatus;
}.

(** Modelled from the spec: [Slice::markSuccess] is declared in
    transport/transport.h, which is not among the sources; it marks the
    slice successful. *)
Definition markSuccess (s : Slice) : Slice :=
  {| source_addr := source_addr s; slice_length := slice_length s;
     rdma_dest_addr := rdma_dest_addr s; rdma_dest_rkey := rdma_dest_rkey s;
     status := SUCCESS |}.

(** The slices live in the caller's memory: a store from addresses to
    slice objects.  The same address may occur more than once in a list. *)
Abbreviation SliceHeap := (gmap N Slice).

Record EfaCq := { cq : handle }.

Record EfaMemoryRegionMeta := {
  mr_addr : Z;
  mr_length : Z;
  mr : handle;
  key : Z;
}.

(** The members of [EfaEndPoint] that its functions read or write
    ([context_] is passed to the functions instead). *)
Record EfaEndPoint := {
  status_ : Status;
  ep_ : handle;
  tx_cq_ : handle;
  rx_cq_ : handle;
  peer_fi_addr_ : Z;
  local_addr_ : list byte;
  local_addr_len_ : Z;
  wr_depth_ : Z;
  max_wr_depth_ : Z;
  peer_nic_path_ : string;
}.

(** [std::shared_ptr<EfaEndPoint>]: [None] is the empty pointer, [Some l]
    points to the endpoint stored at [l]. *)
Abbreviation EndPointRef := (option positive).
Abbreviation EndPointHeap := (gmap positive EfaEndPoint).

(** The members of [EfaContext]; [local_server_name] stands for
    [engine_.local_server_name()]. *)
Record EfaContext := {
  local_server_name : string;
  device_name_ : string;
  fi_info_ : handle;
  hints_ : handle;
  fabric_ : handle;
  domain_ : handle;
  av_ : handle;
  cq_list_ : list (option EfaCq);
  mr_map_ : gmap Z EfaMemoryRegionMeta;
  endpoint_store_ : option (gmap string EndPointRef);
}.

(** Member updates. *)
Definition set_status_ (v : Status) (e : EfaEndPoint) : EfaEndPoint :=
  {| status_ := v; ep_ := ep_ e; tx_cq_ := tx_cq_ e; rx_cq_ := rx_cq_ e;
     peer_fi_addr_ := peer_fi_addr_ e; local_addr_ := local_addr_ e;
     local_addr_len_ := local_addr_len_ e; wr_depth_ := wr_depth_ e;
     max_wr_depth_ := max_wr_depth_ e; peer_nic_path_ := peer_nic_path_ e |}.

Definition set_ep_ (v : handle) (e : EfaEndPoint) : EfaEndPoint :=
  {| status_ := status_ e; ep_ := v; tx_cq_ := tx_cq_ e; rx_cq_ := rx_cq_ e;
     peer_fi_addr_ := peer_fi_addr_ e; local_addr_ := local_addr_ e;
     local_addr_len_ := local_addr_len_ e; wr_depth_ := wr_depth_ e;
     max_wr_depth_ := max_wr_depth_ e; peer_nic_path_ := peer_nic_path_ e |}.

Definition set_peer_fi_addr_ (v : Z) (e : EfaEndPoint) : EfaEndPoint :=
  {| status_ := status_ e; ep_ := ep_ e; tx_cq_ := tx_cq_ e; rx_cq_ := rx_cq_ e;
     peer_fi_addr_ := v; local_addr_ := local_addr_ e;
     local_addr_len_ := local_addr_len_ e; wr_depth_ := wr_depth_ e;
     max_wr_depth_ := max_wr_depth_ e; peer_nic_path_ := peer_nic_path_ e |}.

Definition set_local_addr_ (v : list byte) (n : Z) (e : EfaEndPoint) : EfaEndPoint :=
  {| status_ := status_ e; ep_ := ep_ e; tx_cq_ := tx_cq_ e; rx_cq_ := rx_cq_ e;
     peer_fi_addr_ := peer_fi_addr_ e; local_addr_ := v;
     local_addr_len_ := n; wr_depth_ := wr_depth_ e;
     max_wr_depth_ := max_wr_depth_ e; peer_nic_path_ := peer_nic_path_ e |}.

Definition set_wr_depth_ (v : Z) (e : EfaEndPoint) : EfaEndPoint :=
  {| status_ := status_ e; ep_ := ep_ e; tx_cq_ := tx_cq_ e; rx_cq_ := rx_cq_ e;
     peer_fi_addr_ := peer_fi_addr_ e; local_addr_ := local_addr_ e;
     local_addr_len_ := local_addr_len_ e; wr_depth_ := v;
     max_wr_depth_ := max_wr_depth_ e; peer_nic_path_ := peer_nic_path_ e |}.

Definition set_peer_nic_path_ (v : string) (e : EfaEndPoint) : EfaEndPoint :=
  {| status_ := status_ e; ep_ := ep_ e; tx_cq_ := tx_cq_ e; rx_cq_ := rx_cq_ e;
     peer_fi_addr_ := peer_fi_addr_ e; local_addr_ := local_addr_ e;
     local_addr_len_ := local_addr_len_ e; wr_depth_ := wr_depth_ e;
     max_wr_depth_ := max_wr_depth_ e; peer_nic_path_ := v |}.

(** [tx_cq_ = cq; rx_cq_ = cq; max_wr_depth_ = max_wr;] *)
Definition set_cqs_ (c : handle) (max_wr : Z) (e : EfaEndPoint) : EfaEndPoint :=
  {| status_ := status_ e; ep_ := ep_ e; tx_cq_ := c; rx_cq_ := c;
     peer_fi_addr_ := peer_fi_addr_ e; local_addr_ := local_addr_ e;
     local_addr_len_ := local_addr_len_ e; wr_depth_ := wr_depth_ e;
     max_wr_depth_ := max_wr; peer_nic_path_ := peer_nic_path_ e |}.

Definition set_hints_ (v : handle) (c : EfaContext) : EfaContext :=
  {| local_server_name := local_server_name c; device_name_ := device_name_ c;
     fi_info_ := fi_info_ c; hints_ := v; fabric_ := fabric_ c;
     domain_ := domain_ c; av_ := av_ c; cq_list_ := cq_list_ c;
     mr_map_ := mr_map_ c; endpoint_store_ := endpoint_store_ c |}.

Definition set_fi_info_ (v : handle) (c : EfaContext) : EfaContext :=
  {| local_server_name := local_server_name c; device_name_ := device_name_ c;
     fi_info_ := v; hints_ := hints_ c; fabric_ := fabric_ c;
     domain_ := domain_ c; av_ := av_ c; cq_list_ := cq_list_ c;
     mr_map_ := mr_map_ c; endpoint_store_ := endpoint_store_ c |}.

Definition set_fabric_ (v : handle) (c : EfaContext) : EfaContext :=
  {| local_server_name := local_server_name c; device_name_ := device_name_ c;
     fi_info_ := fi_info_ c; hints_ := hints_ c; fabric_ := v;
     domain_ := domain_ c; av_ := av_ c; cq_list_ := cq_list_ c;
     mr_map_ := mr_map_ c; endpoint_store_ := endpoint_store_ c |}.

Definition set_domain_ (v : handle) (c : EfaContext) : EfaContext :=
  {| local_server_name := local_server_name c; device_name_ := device_name_ c;
     fi_info_ := fi_info_ c; hints_ := hints_ c; fabric_ := fabric_ c;
     domain_ := v; av_ := av_ c; cq_list_ := cq_list_ c;
     mr_map_ := mr_map_ c; endpoint_store_ := endpoint_store_ c |}.

Definition set_av_ (v : handle) (c : EfaContext) : EfaContext :=
  {| local_server_name := local_server_name c; device_name_ := device_name_ c;
     fi_info_ := fi_info_ c; hints_ := hints_ c; fabric_ := fabric_ c;
     domain_ := domain_ c; av_ := v; cq_list_ := cq_list_ c;
     mr_map_ := mr_map_ c; endpoint_store_ := endpoint_store_ c |}.

Definition set_cq_list_ (v : list (option EfaCq)) (c : EfaContext) : EfaContext :=
  {| local_server_name := local_server_name c; device_name_ := device_name_ c;
     fi_info_ := fi_info_ c; hints_ := hints_ c; fabric_ := fabric_ c;
     domain_ := domain_ c; av_ := av_ c; cq_list_ := v;
     mr_map_ := mr_map_ c; endpoint_store_ := endpoint_store_ c |}.

Definition set_mr_map_ (v : gmap Z EfaMemoryRegionMeta) (c : EfaContext) : EfaContext :=
  {| local_server_name := local_server_name c; device_name_ := device_name_ c;
     fi_info_ := fi_info_ c; hints_ := hints_ c; fabric_ := fabric_ c;
     domain_ := domain_ c; av_ := av_ c; cq_list_ := cq_list_ c;
     mr_map_ := v; endpoint_store_ := endpoint_store_ c |}.

Definition set_endpoint_store_ (v : option (gmap string EndPointRef))
    (c : EfaContext) : EfaContext :=
  {| local_server_name := local_server_name c; device_name_ := device_name_ c;
     fi_info_ := fi_info_ c; hints_ := hints_ c; fabric_ := fabric_ c;
     domain_ := domain_ c; av_ := av_ c; cq_list_ := cq_list_ c;
     mr_map_ := mr_map_ c; endpoint_store_ := v |}.

(** [EfaContext::nicPath]; the endpoint reads it through [context_]. *)
Definition nicPath (c : EfaContext) : string :=
  local_server_name c +:+ "@" +:+ device_name_ c.

(** ** EfaEndPoint *)

Module EfaEndPoint.
Section Defs.
Context `{Platform}.

(** The constructor's member initialisers; the vector and the string
    start empty. *)
Definition new : EfaEndPoint :=
  {| status_ := INITIALIZING; ep_ := nullptr; tx_cq_ := nullptr;
     rx_cq_ := nullptr; peer_fi_addr_ := FI_ADDR_UNSPEC; local_addr_ := [];
     local_addr_len_ := 0; wr_depth_ := 0; max_wr_depth_ := 0;
     peer_nic_path_ := "" |}.

(** Modelled from the spec: [connected()] is defined in efa_endpoint.h,
    which is not among the sources; an endpoint is connected when its
    state is CONNECTED. *)
Definition connected (e : EfaEndPoint) : bool :=
  bool_decide (status_ e = CONNECTED).

(** The repeated failure exit of [construct]:
    [fi_close(&ep_->fid); ep_ = nullptr; return ERR_ENDPOINT;] *)
Definition close_and_fail (e : EfaEndPoint) : M (Z * EfaEndPoint) :=
  _ ← call (fi_close (ep_ e));
  mret (ERR_ENDPOINT, set_ep_ nullptr e).

(** The buffer after [fi_getname] wrote [bs] at its start. *)
Definition getname_buffer (bs buf : list byte) : list byte :=
  take 64 bs ++ drop (List.length (take 64 bs)) buf.

Definition construct (ctx : EfaContext) (e : EfaEndPoint) (cq : handle)
    (max_wr : Z) : M (Z * EfaEndPoint) :=
  if bool_decide (status_ e ≠ INITIALIZING) then mret (ERR_ENDPOINT, e) else
  let e := set_cqs_ cq max_wr e in
  r ← call (fi_endpoint (domain_ ctx) (fi_info_ ctx));
  let e := set_ep_ (out_on_success r (ep_ e)) e in
  if negb (ret r =? 0) then mret (ERR_ENDPOINT, e) else
  r ← call (fi_ep_bind (ep_ e) (av_ ctx) 0);
  if negb (ret r =? 0) then close_and_fail e else
  r ← call (fi_ep_bind (ep_ e) (tx_cq_ e) FI_TRANSMIT);
  if negb (ret r =? 0) then close_and_fail e else
  r ← call (fi_ep_bind (ep_ e) (rx_cq_ e) FI_RECV);
  if negb (ret r =? 0) then close_and_fail e else
  r ← call (fi_enable (ep_ e));
  if negb (ret r =? 0) then close_and_fail e else
  let e := set_local_addr_ (resize 64 x00 (local_addr_ e)) 64 e in
  r ← call (fi_getname (ep_ e) (local_addr_len_ e));
  let e := set_local_addr_ (getname_buffer (out_bytes r) (local_addr_ e))
             (Z.of_N (out r)) e in
  if negb (ret r =? 0) then close_and_fail e else
  let e := set_local_addr_
             (resize (Z.to_nat (local_addr_len_ e)) x00 (local_addr_ e))
             (local_addr_len_ e) e in
  mret (0, set_status_ UNCONNECTED e).

Definition deconstruct (e : EfaEndPoint) : M (Z * EfaEndPoint) :=
  if negb (is_null (ep_ e)) then
    _ ← call (fi_close (ep_ e));
    mret (0, set_ep_ nullptr e)
  else mret (0, e).

Definition disconnectUnlocked (e : EfaEndPoint) : EfaEndPoint :=
  set_status_ UNCONNECTED (set_peer_fi_addr_ FI_ADDR_UNSPEC e).

Definition disconnect (e : EfaEndPoint) : EfaEndPoint :=
  disconnectUnlocked e.

Definition setPeerNicPath (e : EfaEndPoint) (peer_nic_path : string)
    : EfaEndPoint :=
  let e := if connected e then disconnectUnlocked e else e in
  set_peer_nic_path_ peer_nic_path e.

Definition getLocalAddr (e : EfaEndPoint) : string :=
  Hex.hex_of_bytes (local_addr_ e).

(** [fi_av_insert] returns the number of addresses inserted and stores
    the address-vector handle through [&peer_fi_addr_]. *)
Definition insertPeerAddr (ctx : EfaContext) (e : EfaEndPoint)
    (peer_addr : string) : M (Z * EfaEndPoint) :=
  let addr_bin := Hex.hex_to_bytes peer_addr in
  r ← call (fi_av_insert (av_ ctx) addr_bin);
  let e := set_peer_fi_addr_ (Z.of_N (out r)) e in
  if negb (ret r =? 1) then mret (ERR_ENDPOINT, e) else mret (0, e).

Definition setupConnectionsByActive (ctx : EfaContext) (e : EfaEndPoint)
    : M (Z * EfaEndPoint) :=
  if connected e then mret (0, e) else
  if bool_decide (nicPath ctx = peer_nic_path_ e) then
    '(rc, e) ← insertPeerAddr ctx e (getLocalAddr e);
    if negb (rc =? 0) then mret (rc, e) else
    mret (0, set_status_ CONNECTED e)
  else
    let local_desc :=
      {| local_nic_path := nicPath ctx;
         peer_nic_path := peer_nic_path_ e;
         reply_msg := getLocalAddr e |} in
    let peer_server_name := getServerNameFromNicPath (peer_nic_path_ e) in
    let peer_nic_name := getNicNameFromNicPath (peer_nic_path_ e) in
    if bool_decide (peer_server_name = "") || bool_decide (peer_nic_name = "")
    then mret (ERR_INVALID_ARGUMENT, e) else
    r ← call (sendHandshake peer_server_name local_desc);
    let peer_desc := out_desc r in
    if negb (ret r =? 0) then mret (ret r, e) else
    if bool_decide (reply_msg peer_desc = "") then
      mret (ERR_REJECT_HANDSHAKE, e)
    else
    '(rc, e) ← insertPeerAddr ctx e (reply_msg peer_desc);
    if negb (rc =? 0) then mret (rc, e) else
    mret (0, set_status_ CONNECTED e).

Definition set_reply_msg (v : string) (d : HandShakeDesc) : HandShakeDesc :=
  {| local_nic_path := local_nic_path d; peer_nic_path := peer_nic_path d;
     reply_msg := v |}.

Definition setupConnectionsByPassive (ctx : EfaContext) (e : EfaEndPoint)
    (peer_desc local_desc : HandShakeDesc)
    : M (Z * EfaEndPoint * HandShakeDesc) :=
  let e := if connected e then disconnectUnlocked e else e in
  if bool_decide (peer_nic_path peer_desc ≠ nicPath ctx)
     || bool_decide (local_nic_path peer_desc ≠ peer_nic_path_ e)
  then mret (ERR_REJECT_HANDSHAKE, e, set_reply_msg "" local_desc) else
  if bool_decide (reply_msg peer_desc = "") then
    mret (ERR_REJECT_HANDSHAKE, e, set_reply_msg "" local_desc)
  else
  '(rc, e) ← insertPeerAddr ctx e (reply_msg peer_desc);
  if negb (rc =? 0) then mret (rc, e, set_reply_msg "" local_desc) else
  let local_desc :=
    {| local_nic_path := nicPath ctx;
       peer_nic_path := peer_nic_path_ e;
       reply_msg := getLocalAddr e |} in
  mret (0, set_status_ CONNECTED e, local_desc).

Definition hasOutstandingSlice (e : EfaEndPoint) : bool :=
  bool_decide (wr_depth_ e > 0).


(** The state the submission loop works on: the endpoint, the input
    vector, the failed vector, the caller's slices and the world. *)
Definition LoopState : Type :=
  EfaEndPoint * list N * list N * SliceHeap * World.

(** The [for (auto it = slice_list.begin(); it != slice_list.end();)]
    loop; [it] is the iterator's index.  Reading a slice through a
    pointer that holds no slice has no defined behaviour: [None].
    [wr_depth_] is declared in efa_endpoint.h, which is not among the
    sources; the counter is an unbounded integer here. *)
Equations? post_loop (e : EfaEndPoint) (slice_list : list N) (it : nat)
    (failed_slice_list : list N) (heap : SliceHeap) (w : World)
    : option LoopState by wf (List.length slice_list - it)%nat lt :=
post_loop e slice_list it failed_slice_list heap w
  with Logic.inspect (slice_list !! it) := {
  | exist _ None _ := Some (e, slice_list, failed_slice_list, heap, w)
  | exist _ (Some slice) Hit with heap !! slice := {
    | None := None
    | Some s with call (fi_write (ep_ e) (source_addr s) (slice_length s)
                          (peer_fi_addr_ e) (rdma_dest_addr s)
                          (rdma_dest_rkey s)) w := {
      | (r, w') =>
          if ret r =? 0 then
            post_loop (set_wr_depth_ (wr_depth_ e + 1) e)
              (delete it slice_list) it failed_slice_list
              (<[slice := markSuccess s]> heap) w'
          else if ret r =? - FI_EAGAIN then
            post_loop e slice_list (S it) failed_slice_list heap w'
          else
            post_loop e (delete it slice_list) it
              (failed_slice_list ++ [slice]) heap w' } } }.
Proof.
  all: pose proof (lookup_lt_Some _ _ _ Hit);
    try rewrite length_delete by eauto; lia.
Qed.

Definition submitPostSend (ctx : EfaContext) (e : EfaEndPoint)
    (slice_list failed_slice_list : list N) (heap : SliceHeap) (w : World)
    : option (Z * LoopState) :=
  let run e w :=
    r ← post_loop e slice_list 0 failed_slice_list heap w; Some (0, r) in
  if negb (connected e) then
    let '((rc, e), w) := setupConnectionsByActive ctx e w in
    if negb (rc =? 0) then
      Some (rc, (e, [], failed_slice_list ++ slice_list, heap, w))
    else run e w
  else run e w.

Definition destroyQP (e : EfaEndPoint) : M (Z * EfaEndPoint) :=
  deconstruct e.

(** [doSetupConnection]; [reply_msg] is a pointer that may be null: [None]
    is the null pointer, [Some s] a string holding [s]. *)
Definition doSetupConnection (ctx : EfaContext) (e : EfaEndPoint)
    (peer_addr : string) (reply_msg : option string)
    : M (Z * EfaEndPoint * option string) :=
  '(rc, e) ← insertPeerAddr ctx e peer_addr;
  if negb (rc =? 0) then
    mret (rc, e,
          match reply_msg with
          | Some _ => Some "Failed to insert peer address into AV"
          | None => None
          end)
  else
  mret (0, set_status_ CONNECTED e, reply_msg).

Definition toString (ctx : EfaContext) (e : EfaEndPoint) : string :=
  "EfaEndPoint[" +:+ nicPath ctx +:+ " <-> " +:+ peer_nic_path_ e +:+ "]".

End Defs.
End EfaEndPoint.

(** ** EfaEndpointStore *)

Module EfaEndpointStore.

Definition get (endpoints_ : gmap string EndPointRef) (peer_nic_path : string)
    : EndPointRef :=
  match endpoints_ !! peer_nic_path with
  | Some r => r
  | None => None
  end.

Definition add (endpoints_ : gmap string EndPointRef) (peer_nic_path : string)
    (endpoint : EndPointRef) : gmap string EndPointRef :=
  <[peer_nic_path := endpoint]> endpoints_.

Definition remove (endpoints_ : gmap string EndPointRef) (peer_nic_path : string)
    : gmap string EndPointRef :=
  delete peer_nic_path endpoints_.

Definition size (endpoints_ : gmap string EndPointRef) : nat :=
  base.size endpoints_.

(** [disconnectAll]: [disconnect()] on the endpoint behind every entry
    that is not an empty pointer.  A [std::shared_ptr] that is not empty
    always has its object, so a reference without an endpoint in [eps]
    does not occur; the entries are visited in the order of
    [map_to_list], and the result does not depend on the order. *)
Definition disconnectAll (endpoints_ : gmap string EndPointRef)
    (eps : EndPointHeap) : Z * EndPointHeap :=
  (0, foldr (λ entry h,
               match entry.2 with
               | Some l => alter EfaEndPoint.disconnect l h
               | None => h
               end) eps (map_to_list endpoints_)).

End EfaEndpointStore.

(** ** EfaContext *)

Module EfaContext.
Section Defs.
Context `{Platform}.

(** The constructor's member initialisers; the containers start empty
    and [endpoint_store_] is an empty pointer. *)
Definition new (server_name device_name : string) : EfaContext :=
  {| local_server_name := server_name; device_name_ := device_name;
     fi_info_ := nullptr; hints_ := nullptr; fabric_ := nullptr;
     domain_ := nullptr; av_ := nullptr; cq_list_ := [];
     mr_map_ := ∅; endpoint_store_ := None |}.

(** The completion-queue loop of [construct], from index [i] with [n]
    queues still to open. *)
Fixpoint open_cqs (n i : nat) (max_cqe : Z) (ctx : EfaContext)
    : M (Z * EfaContext) :=
  match n with
  | O => mret (0, ctx)
  | S n' =>
      r ← call (fi_cq_open (domain_ ctx) max_cqe);
      if negb (ret r =? 0) then mret (ERR_CONTEXT, ctx) else
      let cq := {| cq := out r |} in
      open_cqs n' (S i) max_cqe
        (set_cq_list_ (<[i := Some cq]> (cq_list_ ctx)) ctx)
  end.

Definition construct (ctx : EfaContext) (num_cq_list num_comp_channels : nat)
    (port gid_index max_cqe max_endpoints : Z) : M (Z * EfaContext) :=
  let ctx := set_endpoint_store_ (Some ∅) ctx in
  r ← call fi_allocinfo;
  let ctx := set_hints_ (out r) ctx in
  if is_null (hints_ ctx) then mret (ERR_CONTEXT, ctx) else
  let domain_name := device_name_ ctx +:+ "-rdm" in
  r ← call (fi_getinfo (hints_ ctx) domain_name);
  let ctx := set_fi_info_ (out_on_success r (fi_info_ ctx)) ctx in
  if negb (ret r =? 0) then
    _ ← call (fi_freeinfo (hints_ ctx));
    mret (ERR_CONTEXT, set_hints_ nullptr ctx)
  else
  r ← call (fi_fabric (fi_info_ ctx));
  let ctx := set_fabric_ (out_on_success r (fabric_ ctx)) ctx in
  if negb (ret r =? 0) then
    _ ← call (fi_freeinfo (fi_info_ ctx));
    _ ← call (fi_freeinfo (hints_ ctx));
    mret (ERR_CONTEXT, set_hints_ nullptr (set_fi_info_ nullptr ctx))
  else
  r ← call (fi_domain (fabric_ ctx) (fi_info_ ctx));
  let ctx := set_domain_ (out_on_success r (domain_ ctx)) ctx in
  if negb (ret r =? 0) then
    _ ← call (fi_close (fabric_ ctx));
    _ ← call (fi_freeinfo (fi_info_ ctx));
    _ ← call (fi_freeinfo (hints_ ctx));
    mret (ERR_CONTEXT,
          set_hints_ nullptr (set_fi_info_ nullptr (set_fabric_ nullptr ctx)))
  else
  r ← call (fi_av_open (domain_ ctx) max_endpoints);
  let ctx := set_av_ (out_on_success r (av_ ctx)) ctx in
  if negb (ret r =? 0) then
    _ ← call (fi_close (domain_ ctx));
    _ ← call (fi_close (fabric_ ctx));
    _ ← call (fi_freeinfo (fi_info_ ctx));
    _ ← call (fi_freeinfo (hints_ ctx));
    mret (ERR_CONTEXT,
          set_hints_ nullptr (set_fi_info_ nullptr
            (set_fabric_ nullptr (set_domain_ nullptr ctx))))
  else
  let ctx := set_cq_list_ (resize num_cq_list None (cq_list_ ctx)) ctx in
  open_cqs num_cq_list 0 max_cqe ctx.

Definition set_mr (v : handle) (m : EfaMemoryRegionMeta) : EfaMemoryRegionMeta :=
  {| mr_addr := mr_addr m; mr_length := mr_length m; mr := v; key := key m |}.

Definition set_key (v : Z) (m : EfaMemoryRegionMeta) : EfaMemoryRegionMeta :=
  {| mr_addr := mr_addr m; mr_length := mr_length m; mr := mr m; key := v |}.

Definition registerMemoryRegionInternal (ctx : EfaContext) (addr length access : Z)
    (mrMeta : EfaMemoryRegionMeta) : M (Z * EfaMemoryRegionMeta) :=
  let length := if length >? max_mr_size then max_mr_size else length in
  let mrMeta :=
    {| mr_addr := addr; mr_length := length; mr := mr mrMeta;
       key := key mrMeta |} in
  let fi_access := 0 in
  let fi_access := if negb (Z.land access FI_READ =? 0)
                   then Z.lor fi_access FI_READ else fi_access in
  let fi_access := if negb (Z.land access FI_WRITE =? 0)
                   then Z.lor fi_access FI_WRITE else fi_access in
  let fi_access := if negb (Z.land access FI_REMOTE_READ =? 0)
                   then Z.lor fi_access FI_REMOTE_READ else fi_access in
  let fi_access := if negb (Z.land access FI_REMOTE_WRITE =? 0)
                   then Z.lor fi_access FI_REMOTE_WRITE else fi_access in
  let fi_access :=
    Z.lor (Z.lor (Z.lor FI_READ FI_WRITE) FI_REMOTE_READ) FI_REMOTE_WRITE in
  r ← call (fi_mr_reg (domain_ ctx) addr length fi_access);
  let mrMeta := set_mr (out_on_success r (mr mrMeta)) mrMeta in
  if negb (ret r =? 0) then mret (ERR_CONTEXT, mrMeta) else
  k ← call (fi_mr_key (mr mrMeta));
  mret (0, set_key (Z.of_N (out k)) mrMeta).

(** The local [EfaMemoryRegionMeta mrMeta;] before it is filled; every
    member is assigned before it is stored. *)
Definition fresh_meta : EfaMemoryRegionMeta :=
  {| mr_addr := 0; mr_length := 0; mr := nullptr; key := 0 |}.

Definition registerMemoryRegion (ctx : EfaContext) (addr length access : Z)
    : M (Z * EfaContext) :=
  '(rc, mrMeta) ← registerMemoryRegionInternal ctx addr length access fresh_meta;
  if negb (rc =? 0) then mret (rc, ctx) else
  mret (0, set_mr_map_ (<[addr := mrMeta]> (mr_map_ ctx)) ctx).

Definition unregisterMemoryRegion (ctx : EfaContext) (addr : Z)
    : M (Z * EfaContext) :=
  match mr_map_ ctx !! addr with
  | Some m =>
      rc ← (if negb (is_null (mr m))
            then r ← call (fi_close (mr m)); mret (ret r)
            else mret 0);
      if negb (rc =? 0) then mret (ERR_CONTEXT, ctx) else
      mret (0, set_mr_map_ (delete addr (mr_map_ ctx)) ctx)
  | None => mret (0, ctx)
  end.

Definition rkey (ctx : EfaContext) (addr : Z) : M Z :=
  match mr_map_ ctx !! addr with
  | Some m => if negb (is_null (mr m)) then mret (key m) else mret 0
  | None => mret 0
  end.

Definition lkey (ctx : EfaContext) (addr : Z) : M Z :=
  match mr_map_ ctx !! addr with
  | Some m =>
      if negb (is_null (mr m))
      then k ← call (fi_mr_key (mr m)); mret (Z.of_N (out k))
      else mret 0
  | None => mret 0
  end.

(** [~EfaEndPoint]: [if (ep_) deconstruct();] *)
Definition destroy_endpoint (e : EfaEndPoint) : M unit :=
  if negb (is_null (ep_ e))
  then _ ← EfaEndPoint.deconstruct e; mret ()
  else mret ().

(** [endpoint(peer_nic_path)]: the endpoints are shared objects, kept in
    [eps]; [std::make_shared] takes a location that holds no endpoint. *)
Definition endpoint (ctx : EfaContext) (eps : EndPointHeap)
    (peer_nic_path : string) : M (EndPointRef * EfaContext * EndPointHeap) :=
  match endpoint_store_ ctx with
  | None => mret (None, ctx, eps)
  | Some store =>
      match EfaEndpointStore.get store peer_nic_path with
      | Some l => mret (Some l, ctx, eps)
      | None =>
          let l := fresh (dom eps) in
          let new_endpoint := EfaEndPoint.new in
          '(rc, new_endpoint) ←
            match cq_list_ ctx with
            | Some c :: _ =>
                EfaEndPoint.construct ctx new_endpoint (cq c) default_max_wr
            | _ => mret (0, new_endpoint)
            end;
          if negb (rc =? 0) then
            _ ← destroy_endpoint new_endpoint;
            mret (None, ctx, eps)
          else
          let new_endpoint :=
            EfaEndPoint.setPeerNicPath new_endpoint peer_nic_path in
          let store := EfaEndpointStore.add store peer_nic_path (Some l) in
          mret (Some l, set_endpoint_store_ (Some store) ctx,
                <[l := new_endpoint]> eps)
      end
  end.

Definition deleteEndpoint (ctx : EfaContext) (peer_nic_path : string)
    : Z * EfaContext :=
  match endpoint_store_ ctx with
  | Some store =>
      (0, set_endpoint_store_
            (Some (EfaEndpointStore.remove store peer_nic_path)) ctx)
  | None => (0, ctx)
  end.

Definition getTotalQPNumber (ctx : EfaContext) : nat :=
  match endpoint_store_ ctx with
  | Some store => EfaEndpointStore.size store
  | None => 0%nat
  end.

(** The loop of the context-level [submitPostSend]; a pointer that is
    not null and holds no slice has no defined behaviour: [None]. *)
Fixpoint mark_slices (slice_list : list N) (heap : SliceHeap)
    : option SliceHeap :=
  match slice_list with
  | [] => Some heap
  | slice :: rest =>
      if negb (is_null slice) then
        s ← heap !! slice;
        mark_slices rest (<[slice := markSuccess s]> heap)
      else mark_slices rest heap
  end.

Definition submitPostSend (ctx : EfaContext) (slice_list : list N)
    (heap : SliceHeap) : M (option (Z * SliceHeap)) :=
  mret (heap' ← mark_slices slice_list heap; Some (0, heap')).

(** The loop over [mr_map_] of [deconstruct]: [fi_close] on every
    handle that is not null.  The container is declared in
    efa_context.h, which is not among the sources; its entries are
    visited in the order of [map_to_list]. *)
Fixpoint close_mrs (entries : list (Z * EfaMemoryRegionMeta)) : M unit :=
  match entries with
  | [] => mret ()
  | entry :: rest =>
      _ ← (if negb (is_null (mr entry.2))
           then _ ← call (fi_close (mr entry.2)); mret ()
           else mret ());
      close_mrs rest
  end.

(** The loop over [cq_list_] of [deconstruct]; the queue objects are
    dropped by [cq_list_.clear()] right after it. *)
Fixpoint close_cqs (cqs : list (option EfaCq)) : M unit :=
  match cqs with
  | [] => mret ()
  | c :: rest =>
      _ ← match c with
          | Some q =>
              if negb (is_null (cq q))
              then _ ← call (fi_close (cq q)); mret ()
              else mret ()
          | None => mret ()
          end;
      close_cqs rest
  end.

Definition deconstruct (ctx : EfaContext) (eps : EndPointHeap)
    : M (Z * EfaContext * EndPointHeap) :=
  let eps := match endpoint_store_ ctx with
             | Some store => (EfaEndpointStore.disconnectAll store eps).2
             | None => eps
             end in
  _ ← close_mrs (map_to_list (mr_map_ ctx));
  let ctx := set_mr_map_ ∅ ctx in
  _ ← close_cqs (cq_list_ ctx);
  let ctx := set_cq_list_ [] ctx in
  ctx ← (if negb (is_null (av_ ctx))
         then _ ← call (fi_close (av_ ctx)); mret (set_av_ nullptr ctx)
         else mret ctx);
  ctx ← (if negb (is_null (domain_ ctx))
         then _ ← call (fi_close (domain_ ctx)); mret (set_domain_ nullptr ctx)
         else mret ctx);
  ctx ← (if negb (is_null (fabric_ ctx))
         then _ ← call (fi_close (fabric_ ctx)); mret (set_fabric_ nullptr ctx)
         else mret ctx);
  ctx ← (if negb (is_null (fi_info_ ctx))
         then _ ← call (fi_freeinfo (fi_info_ ctx));
              mret (set_fi_info_ nullptr ctx)
         else mret ctx);
  ctx ← (if negb (is_null (hints_ ctx))
         then _ ← call (fi_freeinfo (hints_ ctx)); mret (set_hints_ nullptr ctx)
         else mret ctx);
  mret (0, ctx, eps).

(** [~EfaContext]: [if (fabric_) deconstruct();] *)
Definition destructor (ctx : EfaContext) (eps : EndPointHeap)
    : M (EfaContext * EndPointHeap) :=
  if negb (is_null (fabric_ ctx)) then
    '(_, ctx, eps) ← deconstruct ctx eps; mret (ctx, eps)
  else mret (ctx, eps).

Definition disconnectAllEndpoints (ctx : EfaContext) (eps : EndPointHeap)
    : Z * EndPointHeap :=
  match endpoint_store_ ctx with
  | Some store => EfaEndpointStore.disconnectAll store eps
  | None => (0, eps)
  end.

End Defs.
End EfaContext.

(** ** What the submission loop is required to do

    The required behaviour, written independently of the iterator loop:
    every slice of the input list is posted once, in order, and the
    posting's return value alone decides where the slice goes. *)

Inductive Outcome := Posted | QueueFull | HardError.

#[export] Instance Outcome_eq_dec : EqDecision Outcome.
Proof. solve_decision. Defined.

Definition classify (rc : Z) : Outcome :=
  if rc =? 0 then Posted
  else if rc =? - FI_EAGAIN then QueueFull
  else HardError.

Definition is_fi_write (c : Call) : bool :=
  match c with fi_write _ _ _ _ _ _ => true | _ => false end.

Definition is_sendHandshake (c : Call) : bool :=
  match c with sendHandshake _ _ => true | _ => false end.

Definition is_fi_cq_open (c : Call) : bool :=
  match c with fi_cq_open _ _ => true | _ => false end.

(** The slices of an outcome list that ended a given way. *)
Definition slices_with (o : Outcome) (os : list (N * Outcome)) : list N :=
  (filter (λ x, x.2 = o) os).*1.

(** Marking a list of slices successful in the caller's memory. *)
Definition mark_all (heap : SliceHeap) (ps : list N) : SliceHeap :=
  foldl (λ h p, alter markSuccess p h) heap ps.

Section Required.
Context `{Platform}.

(** Posting the slices of [l] one after the other, in order, on the
    provider endpoint [ep] towards the address-vector handle [peer]. *)
Fixpoint post_outcomes (ep : handle) (peer : Z) (heap : SliceHeap)
    (l : list N) (w : World) : list (N * Outcome) * World :=
  match l with
  | [] => ([], w)
  | p :: rest =>
      match heap !! p with
      | Some s =>
          let '(r, w1) := call (fi_write ep (source_addr s) (slice_length s)
                                  peer (rdma_dest_addr s) (rdma_dest_rkey s))
                            w in
          let '(os, w2) := post_outcomes ep peer heap rest w1 in
          ((p, classify (ret r)) :: os, w2)
      | None => ([], w)
      end
  end.

(** The length that [registerMemoryRegionInternal] records. *)
Definition clamped (length : Z) : Z :=
  if length >? max_mr_size then max_mr_size else length.

(** The handshake-rejection claim as the specification words it: a
    request with inconsistent paths is rejected with an empty reply and
    the connection state is the one before the call. *)
Definition passive_mismatch_keeps_state : Prop :=
  ∀ (ctx : EfaContext) (e : EfaEndPoint) (peer_desc local_desc : HandShakeDesc)
    (w : World),
    (peer_nic_path peer_desc ≠ nicPath ctx
     ∨ local_nic_path peer_desc ≠ peer_nic_path_ e) →
    ∀ rc e' d w',
      EfaEndPoint.setupConnectionsByPassive ctx e peer_desc local_desc w
        = ((rc, e', d), w') →
      rc = ERR_REJECT_HANDSHAKE ∧ reply_msg d = "" ∧ status_ e' = status_ e.

(** The loopback claim as the specification words it: the own address is
    handed to the address vector, nothing is sent, and the state is
    CONNECTED afterwards. *)
Definition loopback_always_connects : Prop :=
  ∀ (ctx : EfaContext) (e : EfaEndPoint) (w : World),
    EfaEndPoint.connected e = false →
    nicPath ctx = peer_nic_path_ e →
    ∀ rc e' w',
      EfaEndPoint.setupConnectionsByActive ctx e w = ((rc, e'), w') →
      trace w' = trace w ++ [fi_av_insert (av_ ctx) (local_addr_ e)]
      ∧ status_ e' = CONNECTED.

End Required.

(** ** Vocabulary of the further properties *)

(** The characters [std::hex] prints: a digit or a lower-case letter up
    to f. *)
Definition is_lower_hex (a : ascii) : bool :=
  let n := N_of_ascii a in
  (((48 <=? n) && (n <=? 57)) || ((97 <=? n) && (n <=? 102)))%N.

Definition is_fi_close (c : Call) : bool :=
  match c with fi_close _ => true | _ => false end.

(** The calls that give something back to the provider. *)
Definition is_release (c : Call) : bool :=
  match c with fi_close _ | fi_freeinfo _ => true | _ => false end.

(** The access mask every registration asks for. *)
Definition full_access : Z :=
  Z.lor (Z.lor (Z.lor FI_READ FI_WRITE) FI_REMOTE_READ) FI_REMOTE_WRITE.

(** The calls of a construction of an endpoint that goes through, for the
    completion queue [c] and the provider endpoint [ep]. *)
Definition construct_calls (ctx : EfaContext) (c ep : handle) : list Call :=
  [fi_endpoint (domain_ ctx) (fi_info_ ctx);
   fi_ep_bind ep (av_ ctx) 0;
   fi_ep_bind ep c FI_TRANSMIT;
   fi_ep_bind ep c FI_RECV;
   fi_enable ep;
   fi_getname ep 64].

(** The write that the submission loop posts for the slice at [p], and
    the writes for a list of slices. *)
Definition write_call (ep : handle) (peer : Z) (s : Slice) : Call :=
  fi_write ep (source_addr s) (slice_length s) peer (rdma_dest_addr s)
    (rdma_dest_rkey s).

Definition write_calls (ep : handle) (peer : Z) (heap : SliceHeap)
    (l : list N) : list Call :=
  omap (λ p, write_call ep peer <$> heap !! p) l.

(** The members of an endpoint that connecting and disconnecting never
    write: everything but the state and the peer handle. *)
Definition same_resources (e e' : EfaEndPoint) : Prop :=
  ep_ e' = ep_ e ∧ tx_cq_ e' = tx_cq_ e ∧ rx_cq_ e' = rx_cq_ e
  ∧ local_addr_ e' = local_addr_ e ∧ local_addr_len_ e' = local_addr_len_ e
  ∧ wr_depth_ e' = wr_depth_ e ∧ max_wr_depth_ e' = max_wr_depth_ e
  ∧ peer_nic_path_ e' = peer_nic_path_ e.

(** The release of a handle that may be null. *)
Definition close_if (h : handle) : list Call :=
  if is_null h then [] else [fi_close h].

Definition free_if (h : handle) : list Call :=
  if is_null h then [] else [fi_freeinfo h].

Definition mr_closes (entries : list (Z * EfaMemoryRegionMeta)) : list Call :=
  flat_map (λ entry, close_if (mr entry.2)) entries.

Definition cq_closes (cqs : list (option EfaCq)) : list Call :=
  flat_map (λ c, match c with
                 | Some q => close_if (cq q)
                 | None => []
                 end) cqs.

(** The order in which a teardown gives the resources of a context
    back: memory regions, completion queues, address vector, domain,
    fabric, fabric information, hints. *)
Definition teardown_calls (ctx : EfaContext) : list Call :=
  mr_closes (map_to_list (mr_map_ ctx)) ++ cq_closes (cq_list_ ctx)
  ++ close_if (av_ ctx) ++ close_if (domain_ ctx) ++ close_if (fabric_ ctx)
  ++ free_if (fi_info_ ctx) ++ free_if (hints_ ctx).

(** A context with nothing left but its names and its endpoint store. *)
Definition torn_down (ctx : EfaContext) : EfaContext :=
  {| local_server_name := local_server_name ctx;
     device_name_ := device_name_ ctx;
     fi_info_ := nullptr; hints_ := nullptr; fabric_ := nullptr;
     domain_ := nullptr; av_ := nullptr; cq_list_ := []; mr_map_ := ∅;
     endpoint_store_ := endpoint_store_ ctx |}.

(** ** A scripted platform

    A provider that answers the calls it receives from a prepared list
    of replies, in order; used to run the functions on concrete inputs. *)

Module Scripted.

Definition ok (o : N) : Reply :=
  {| ret := 0; out := o; out_bytes := []; out_desc := empty_desc |}.

Definition fails (rc : Z) : Reply :=
  {| ret := rc; out := 0; out_bytes := []; out_desc := empty_desc |}.

Definition replies (rc : Z) (d : HandShakeDesc) : Reply :=
  {| ret := rc; out := 0; out_bytes := []; out_desc := d |}.

(** [fi_av_insert] reporting [n] inserted addresses and the handle [h]. *)
Definition inserted (n : Z) (h : N) : Reply :=
  {| ret := n; out := h; out_bytes := []; out_desc := empty_desc |}.

Definition next_reply (script : list Reply) (c : Call) : Reply * list Reply :=
  match script with
  | r :: rest => (r, rest)
  | [] => (ok 0, [])
  end.

Fixpoint before_at (s : string) : option string :=
  match s with
  | EmptyString => None
  | String a r => if Ascii.eqb a "@" then Some EmptyString
                  else String a <$> before_at r
  end.

Fixpoint after_at (s : string) : option string :=
  match s with
  | EmptyString => None
  | String a r => if Ascii.eqb a "@" then Some r else after_at r
  end.

(** Modelled from the spec: common.h, which defines
    [getServerNameFromNicPath], is not among the sources; a peer path
    reads <server-identity>@<device-name>, and this is the part before
    the separator. *)
Definition server_name_of (s : string) : string := default "" (before_at s).

(** Modelled from the spec: common.h, which defines
    [getNicNameFromNicPath], is not among the sources; this is the part
    of the peer path after the separator. *)
Definition nic_name_of (s : string) : string := default "" (after_at s).

Definition platform : Platform :=
  {| W := list Reply;
     provider := next_reply;
     ERR_INVALID_ARGUMENT := -1;
     ERR_REJECT_HANDSHAKE := -104;
     ERR_ENDPOINT := -201;
     ERR_CONTEXT := -202;
     getServerNameFromNicPath := server_name_of;
     getNicNameFromNicPath := nic_name_of;
     max_mr_size := 4096;
     default_max_wr := 256 |}.

(** The world in which [script] is still to be played and the calls of
    [tr] have been made. *)
Definition world_after (script : list Reply) (tr : list Call)
    : @World platform :=
  @Build_World platform script tr.

Definition world (script : list Reply) : @World platform :=
  world_after script [].

(** Context of server A on device efa0, constructed by hand. *)
Definition ctxA : EfaContext :=
  {| local_server_name := "A"; device_name_ := "efa0";
     fi_info_ := 2%N; hints_ := 1%N; fabric_ := 3%N; domain_ := 4%N;
     av_ := 5%N;
     cq_list_ := []; mr_map_ := ∅; endpoint_store_ := Some ∅ |}.

(** An endpoint of [ctxA] with a four-byte address, towards [peer]. *)
Definition endpoint_to (peer : string) (st : Status) : EfaEndPoint :=
  {| status_ := st; ep_ := 9%N; tx_cq_ := 6%N; rx_cq_ := 6%N;
     peer_fi_addr_ := if bool_decide (st = CONNECTED) then 0 else FI_ADDR_UNSPEC;
     local_addr_ := [xde; xad; xbe; xef]; local_addr_len_ := 4;
     wr_depth_ := 0; max_wr_depth_ := 256; peer_nic_path_ := peer |}.

Definition slice (src len : Z) : Slice :=
  {| source_addr := src; slice_length := len; rdma_dest_addr := src + 65536;
     rdma_dest_rkey := 77; status := PENDING |}.

(** Three slices in the caller's memory. *)
Definition three_slices : SliceHeap :=
  <[16%N := slice 1000 64]> (<[32%N := slice 2000 64]>
    (<[48%N := slice 3000 64]> ∅)).

(** One registered region at address 8192. *)
Definition ctx_registered : EfaContext :=
  set_mr_map_
    (<[8192 := {| mr_addr := 8192; mr_length := 512; mr := 21%N; key := 99 |}]> ∅)
    ctxA.


(** [fi_getname] succeeding with the address [bs]. *)
Definition named (bs : list byte) : Reply :=
  {| ret := 0; out := N.of_nat (List.length bs); out_bytes := bs;
     out_desc := empty_desc |}.

(** [ctxA] with one completion queue (handle 6). *)
Definition ctxA_with_queue : EfaContext :=
  set_cq_list_ [Some {| cq := 6%N |}] ctxA.

(** The answers to a construction of an endpoint that goes through: the
    provider endpoint object 9, four successes, and a four-byte
    address. *)
Definition construct_script : list Reply :=
  [ok 9; ok 0; ok 0; ok 0; ok 0; named [xde; xad; xbe; xef]].

(** Context of server B on device efa0, and its endpoint towards A. *)
Definition ctxB : EfaContext :=
  {| local_server_name := "B"; device_name_ := "efa0";
     fi_info_ := 12%N; hints_ := 11%N; fabric_ := 13%N; domain_ := 14%N;
     av_ := 15%N; cq_list_ := []; mr_map_ := ∅; endpoint_store_ := Some ∅ |}.

Definition endpointB : EfaEndPoint :=
  {| status_ := UNCONNECTED; ep_ := 19%N; tx_cq_ := 16%N; rx_cq_ := 16%N;
     peer_fi_addr_ := FI_ADDR_UNSPEC;
     local_addr_ := [x0a; x0b]; local_addr_len_ := 2;
     wr_depth_ := 0; max_wr_depth_ := 256; peer_nic_path_ := "A@efa0" |}.

(** The request of A's endpoint towards B, and B's answer. *)
Definition requestAB : HandShakeDesc :=
  {| local_nic_path := "A@efa0"; peer_nic_path := "B@efa0";
     reply_msg := "deadbeef" |}.

Definition answerBA : HandShakeDesc :=
  {| local_nic_path := "B@efa0"; peer_nic_path := "A@efa0";
     reply_msg := "0a0b" |}.

(** A store that refers to the endpoint at location 1, and the
    endpoints: a connected one at 1, another connected one at 2 that the
    store does not refer to. *)
Definition store_one : gmap string EndPointRef :=
  <["B@efa0" := Some 1%positive]> (<["C@efa0" := None]> ∅).

Definition two_endpoints : EndPointHeap :=
  <[1%positive := endpoint_to "B@efa0" CONNECTED]>
    (<[2%positive := endpoint_to "D@efa0" CONNECTED]> ∅).

(** A constructed context with two queues, one registered region and
    the store above. *)
Definition ctx_full : EfaContext :=
  {| local_server_name := "A"; device_name_ := "efa0";
     fi_info_ := 2%N; hints_ := 1%N; fabric_ := 3%N; domain_ := 4%N;
     av_ := 5%N; cq_list_ := [Some {| cq := 6%N |}; Some {| cq := 7%N |}];
     mr_map_ := <[8192 := {| mr_addr := 8192; mr_length := 512; mr := 21%N;
                             key := 99 |}]> ∅;
     endpoint_store_ := Some store_one |}.

End Scripted.

(** * Properties *)

Section Properties.
Context `{Platform}.

Ltac run :=
  unfold mbind, M_bind, mret, M_ret, call in *; simpl in *.

Ltac step :=
  match goal with
  | |- context [provider ?e ?c] => destruct (provider e c) as [? ?]; cbn
  end.

Ltac case_ifs :=
  repeat match goal with
         | |- context [if ?b then _ else _] => destruct b; simpl
         end.

(** ** Memory-region registry *)

Lemma is_null_false (h : handle) : is_null h = false ↔ h ≠ nullptr.
Proof.
  unfold is_null, nullptr. rewrite N.eqb_neq. reflexivity.
Qed.

Lemma rkey_absent (ctx : EfaContext) (addr : Z) (w : World) :
  mr_map_ ctx !! addr = None → EfaContext.rkey ctx addr w = (0, w).
Proof. intros E. unfold EfaContext.rkey. rewrite E. reflexivity. Qed.

Lemma lkey_absent (ctx : EfaContext) (addr : Z) (w : World) :
  mr_map_ ctx !! addr = None → EfaContext.lkey ctx addr w = (0, w).
Proof. intros E. unfold EfaContext.lkey. rewrite E. reflexivity. Qed.

Lemma unregister_absent (ctx : EfaContext) (addr : Z) (w : World) :
  mr_map_ ctx !! addr = None →
  EfaContext.unregisterMemoryRegion ctx addr w = ((0, ctx), w).
Proof.
  intros E. unfold EfaContext.unregisterMemoryRegion. rewrite E. reflexivity.
Qed.

Lemma unregister_success_erases (ctx ctx' : EfaContext) (addr : Z)
    (w w' : World) :
  ERR_CONTEXT ≠ 0 →
  EfaContext.unregisterMemoryRegion ctx addr w = ((0, ctx'), w') →
  mr_map_ ctx' !! addr = None.
Proof.
  intros Hne. unfold EfaContext.unregisterMemoryRegion.
  destruct (mr_map_ ctx !! addr) as [m|] eqn:E.
  - run. destruct (is_null (mr m)); simpl.
    + intros [= <- <-]. simpl. apply lookup_delete_eq.
    + destruct (provider (env w) (fi_close (mr m))) as [r e1].
      destruct (ret r =? 0); simpl.
      * intros [= <- <-]. simpl. apply lookup_delete_eq.
      * intros [= Hrc _ _]. congruence.
  - run. intros [= <- <-]. exact E.
Qed.

(** C6: unregistering an address that has no registry entry returns
    success and leaves the context, registry included, and the world as
    they were; and once an unregistration has returned success the address
    has no entry, so that [rkey] and [lkey] answer the sentinel 0 and a
    further unregistration is again a successful no-operation. *)
Theorem unregisterMemoryRegion_absent_noop_and_keys_zero
    (ctx : EfaContext) (addr : Z) (w : World) :
  ERR_CONTEXT ≠ 0 →
  (mr_map_ ctx !! addr = None →
   EfaContext.unregisterMemoryRegion ctx addr w = ((0, ctx), w))
  ∧ (∀ ctx' w',
       EfaContext.unregisterMemoryRegion ctx addr w = ((0, ctx'), w') →
       ∀ w2, EfaContext.rkey ctx' addr w2 = (0, w2)
             ∧ EfaContext.lkey ctx' addr w2 = (0, w2)
             ∧ EfaContext.unregisterMemoryRegion ctx' addr w2
               = ((0, ctx'), w2)).
Proof.
  intros Hne. split.
  - apply unregister_absent.
  - intros ctx' w' Hun w2.
    pose proof (unregister_success_erases _ _ _ _ _ Hne Hun) as E.
    auto using rkey_absent, lkey_absent, unregister_absent.
Qed.

(** C7: a registration is never refused for its length: the provider is
    asked to register the clamped length, and when it accepts, the entry
    recorded under the address has the configured maximum as its length
    if the requested length exceeds it, and the requested length
    otherwise. *)
Theorem registerMemoryRegion_clamps_length
    (ctx : EfaContext) (addr length access : Z) (w : World)
    (r : Reply) (e1 : W) :
  provider (env w)
    (fi_mr_reg (domain_ ctx) addr (clamped length)
       (Z.lor (Z.lor (Z.lor FI_READ FI_WRITE) FI_REMOTE_READ) FI_REMOTE_WRITE))
    = (r, e1) →
  ret r = 0 →
  ∃ ctx' w' m,
    EfaContext.registerMemoryRegion ctx addr length access w = ((0, ctx'), w')
    ∧ mr_map_ ctx' !! addr = Some m
    ∧ (length > max_mr_size → mr_length m = max_mr_size)
    ∧ (length ≤ max_mr_size → mr_length m = length).
Proof.
  intros Hp Hret.
  unfold EfaContext.registerMemoryRegion,
    EfaContext.registerMemoryRegionInternal.
  run. fold (clamped length). rewrite Hp. simpl.
  rewrite Hret. simpl.
  destruct (provider e1 _) as [k e2]. simpl.
  eexists _, _, _. split; [reflexivity|]. simpl.
  split; [apply lookup_insert_eq|]. simpl.
  unfold clamped. split; intros Hl.
  - destruct (Z.gtb_spec length max_mr_size); [reflexivity|lia].
  - destruct (Z.gtb_spec length max_mr_size); [lia|reflexivity].
Qed.

(** ** Slices in the caller's memory *)

Lemma insert_markSuccess (heap : SliceHeap) (p : N) (s : Slice) :
  heap !! p = Some s → <[p := markSuccess s]> heap = alter markSuccess p heap.
Proof.
  intros E. apply map_eq. intros j.
  rewrite lookup_insert, lookup_alter.
  case_decide; subst; rewrite ?E; reflexivity.
Qed.

Lemma markSuccess_idemp (s : Slice) : markSuccess (markSuccess s) = markSuccess s.
Proof. reflexivity. Qed.

Lemma mark_all_lookup (ps : list N) (heap : SliceHeap) (p : N) :
  mark_all heap ps !! p
  = if decide (p ∈ ps) then markSuccess <$> heap !! p else heap !! p.
Proof.
  unfold mark_all. revert heap.
  induction ps as [|q ps IH]; intros heap; cbn [foldl].
  - destruct (decide (p ∈ [])) as [Hin|_]; [|reflexivity].
    exfalso. eapply not_elem_of_nil; eauto.
  - rewrite IH. rewrite lookup_alter.
    destruct (decide (p ∈ ps)) as [Hin|Hin];
      destruct (decide (p ∈ q :: ps)) as [Hin'|Hin'];
      destruct (decide (q = p)) as [->|Hq];
      try reflexivity.
    + destruct (heap !! p); reflexivity.
    + exfalso. apply Hin'. right. exact Hin.
    + exfalso. apply Hin'. right. exact Hin.
    + exfalso. apply elem_of_cons in Hin' as [Heq|Hin']; [congruence|].
      exact (Hin Hin').
    + exfalso. apply Hin'. left.
Qed.

Lemma mark_all_is_Some (ps : list N) (heap : SliceHeap) (p : N) :
  is_Some (mark_all heap ps !! p) ↔ is_Some (heap !! p).
Proof.
  rewrite mark_all_lookup. case_decide; [|reflexivity].
  rewrite fmap_is_Some. reflexivity.
Qed.

Lemma mark_slices_spec (slice_list : list N) (heap : SliceHeap) :
  (∀ p, p ∈ slice_list → p ≠ 0%N → is_Some (heap !! p)) →
  EfaContext.mark_slices slice_list heap
  = Some (mark_all heap (filter (λ p, p ≠ 0%N) slice_list)).
Proof.
  revert heap. induction slice_list as [|p l IH]; intros heap Hal; simpl.
  - reflexivity.
  - destruct (decide (p = 0%N)) as [->|Hp].
    + simpl. rewrite filter_cons_False by (intros ?; congruence).
      apply IH. intros q Hq. apply Hal. right. exact Hq.
    + assert (is_null p = false) as -> by (apply is_null_false; exact Hp).
      simpl. destruct (Hal p) as [s Hs]; [left|exact Hp|].
      rewrite Hs. simpl. rewrite filter_cons_True by exact Hp.
      rewrite (insert_markSuccess _ _ _ Hs). unfold mark_all at 1. simpl.
      apply IH. intros q Hq Hq0.
      rewrite lookup_alter. case_decide; subst.
      * rewrite Hs. eauto.
      * apply Hal; [right; exact Hq|exact Hq0].
Qed.

(** C9: the context-level [submitPostSend] returns 0 for every slice
    list; every slice of the list that is not null is marked successful
    (its other members untouched), every other slice is left as it was,
    and the world is untouched: no connectivity check, no call to the
    provider, nothing reported as failed or to be retried. *)
Theorem context_submitPostSend_marks_every_slice
    (ctx : EfaContext) (slice_list : list N) (heap : SliceHeap) (w : World) :
  (∀ p, p ∈ slice_list → p ≠ 0%N → is_Some (heap !! p)) →
  ∃ heap',
    EfaContext.submitPostSend ctx slice_list heap w = (Some (0, heap'), w)
    ∧ (∀ p, p ∈ slice_list → p ≠ 0%N →
         heap' !! p = markSuccess <$> heap !! p
         ∧ status <$> heap' !! p = Some SUCCESS)
    ∧ (∀ p, p ∉ slice_list ∨ p = 0%N → heap' !! p = heap !! p).
Proof.
  intros Hal. eexists. unfold EfaContext.submitPostSend. run.
  rewrite (mark_slices_spec _ _ Hal). simpl.
  split; [reflexivity|]. split.
  - intros p Hin Hp. rewrite mark_all_lookup.
    rewrite decide_True by (apply list_elem_of_filter; auto).
    split; [reflexivity|].
    destruct (Hal p Hin Hp) as [s ->]. reflexivity.
  - intros p Hp. rewrite mark_all_lookup.
    rewrite decide_False; [reflexivity|].
    rewrite list_elem_of_filter. tauto.
Qed.

(** ** Endpoint creation *)

(** Constructing a new endpoint always reaches the provider: its first
    call is [fi_endpoint]. *)
Lemma construct_new_calls_fi_endpoint (ctx : EfaContext) (c : handle)
    (max_wr : Z) (w : World) :
  ∃ new, trace (EfaEndPoint.construct ctx EfaEndPoint.new c max_wr w).2
         = trace w ++ fi_endpoint (domain_ ctx) (fi_info_ ctx) :: new.
Proof.
  unfold EfaEndPoint.construct, EfaEndPoint.close_and_fail. run.
  repeat (step || case_ifs);
    eexists; rewrite <- ?app_assoc; reflexivity.
Qed.

(** C10: for a peer path that the store does not hold, when the
    completion-queue list is empty or its first entry is an empty
    pointer, [endpoint] allocates an endpoint at a location that held
    none, records the peer path in it, inserts it into the store under
    that path and returns it; the world is untouched, so [construct] was
    not run (it would have called [fi_endpoint]), and the endpoint is in
    the INITIALIZING state with no provider endpoint object. *)
Theorem endpoint_without_completion_queue_unconstructed
    (ctx : EfaContext) (eps : EndPointHeap) (peer_nic_path : string)
    (w : World) (store : gmap string EndPointRef) :
  endpoint_store_ ctx = Some store →
  store !! peer_nic_path = None →
  (cq_list_ ctx = [] ∨ ∃ rest, cq_list_ ctx = None :: rest) →
  ∃ l e,
    EfaContext.endpoint ctx eps peer_nic_path w
    = ((Some l,
        set_endpoint_store_ (Some (<[peer_nic_path := Some l]> store)) ctx,
        <[l := e]> eps), w)
    ∧ eps !! l = None
    ∧ status_ e = INITIALIZING
    ∧ ep_ e = nullptr
    ∧ peer_nic_path_ e = peer_nic_path.
Proof.
  intros Hst Hget Hcq.
  exists (fresh (dom eps)), (set_peer_nic_path_ peer_nic_path EfaEndPoint.new).
  split; [|split; [|repeat split]].
  - unfold EfaContext.endpoint. rewrite Hst.
    unfold EfaEndpointStore.get. rewrite Hget.
    destruct Hcq as [->|[rest ->]]; reflexivity.
  - apply not_elem_of_dom. apply is_fresh.
Qed.

(** ** Hexadecimal addresses *)

Lemma hex_byte_roundtrip (b : byte) :
  Hex.to_uint8 (Hex.strtol16 (Hex.hex_of_byte b)) = b.
Proof. destruct b; vm_compute; reflexivity. Qed.

Lemma hex_roundtrip (l : list byte) :
  Hex.hex_to_bytes (Hex.hex_of_bytes l) = l.
Proof.
  induction l as [|b l IH]; [reflexivity|].
  change (Hex.hex_of_bytes (b :: l))
    with (String (Hex.hex_digit (Byte.to_N b / 16))
            (String (Hex.hex_digit (Byte.to_N b mod 16)) (Hex.hex_of_bytes l))).
  cbn [Hex.hex_to_bytes]. rewrite IH. f_equal. apply hex_byte_roundtrip.
Qed.

(** ** Connection state machine *)

Lemma connected_true (e : EfaEndPoint) :
  EfaEndPoint.connected e = true ↔ status_ e = CONNECTED.
Proof. unfold EfaEndPoint.connected. apply bool_decide_eq_true. Qed.

Lemma connected_false (e : EfaEndPoint) :
  EfaEndPoint.connected e = false ↔ status_ e ≠ CONNECTED.
Proof. unfold EfaEndPoint.connected. apply bool_decide_eq_false. Qed.

Lemma insertPeerAddr_run (ctx : EfaContext) (e : EfaEndPoint) (a : string)
    (w : World) (r : Reply) (e1 : W) :
  provider (env w) (fi_av_insert (av_ ctx) (Hex.hex_to_bytes a)) = (r, e1) →
  EfaEndPoint.insertPeerAddr ctx e a w
  = ((if ret r =? 1 then 0 else ERR_ENDPOINT,
      set_peer_fi_addr_ (Z.of_N (out r)) e),
     {| env := e1;
        trace := trace w ++ [fi_av_insert (av_ ctx) (Hex.hex_to_bytes a)] |}).
Proof.
  intros Hp. unfold EfaEndPoint.insertPeerAddr. run. rewrite Hp.
  destruct (ret r =? 1); reflexivity.
Qed.

(** Whatever [setupConnectionsByActive] does, it posts no write. *)
Lemma setupConnectionsByActive_posts_nothing (ctx : EfaContext)
    (e : EfaEndPoint) (w : World) :
  ∃ new, trace (EfaEndPoint.setupConnectionsByActive ctx e w).2
         = trace w ++ new
         ∧ Forall (λ c, is_fi_write c = false) new.
Proof.
  unfold EfaEndPoint.setupConnectionsByActive.
  destruct (EfaEndPoint.connected e).
  { exists []. rewrite app_nil_r. split; [reflexivity|constructor]. }
  case_bool_decide.
  { unfold mbind, M_bind.
    destruct (provider (env w) (fi_av_insert (av_ ctx)
                (Hex.hex_to_bytes (EfaEndPoint.getLocalAddr e))))
      as [r e1] eqn:Hp.
    rewrite (insertPeerAddr_run _ _ _ _ _ _ Hp).
    eexists [_]. split; [case_ifs; reflexivity|]. repeat constructor. }
  destruct (_ || _).
  { exists []. rewrite app_nil_r. split; [reflexivity|constructor]. }
  unfold mbind, M_bind. unfold call at 1.
  destruct (provider (env w) _) as [r e1].
  destruct (ret r =? 0); simpl.
  2:{ eexists [_]. split; [reflexivity|]. repeat constructor. }
  case_bool_decide.
  { eexists [_]. split; [reflexivity|]. repeat constructor. }
  match goal with |- context [EfaEndPoint.insertPeerAddr ?c ?x ?a ?v] =>
    destruct (provider (env v) (fi_av_insert (av_ c) (Hex.hex_to_bytes a)))
      as [r2 e2] eqn:Hp;
    rewrite (insertPeerAddr_run c x a v _ _ Hp)
  end.
  eexists [_; _].
  split; [case_ifs; simpl; rewrite <- app_assoc; reflexivity|].
  repeat constructor.
Qed.

(** C3: when the endpoint is not connected and the active connection
    establishment returns an error, [submitPostSend] returns that error,
    the input list is empty, the failed list has received every input
    slice, the slices themselves are untouched, and no write was posted:
    the world is the one the failed establishment left. *)
Theorem submitPostSend_unconnected_moves_all_to_failed
    (ctx : EfaContext) (e e' : EfaEndPoint)
    (slice_list failed_slice_list : list N) (heap : SliceHeap)
    (w w' : World) (rc : Z) :
  EfaEndPoint.connected e = false →
  EfaEndPoint.setupConnectionsByActive ctx e w = ((rc, e'), w') →
  rc ≠ 0 →
  EfaEndPoint.submitPostSend ctx e slice_list failed_slice_list heap w
  = Some (rc, (e', [], failed_slice_list ++ slice_list, heap, w'))
  ∧ ∃ new, trace w' = trace w ++ new
           ∧ Forall (λ c, is_fi_write c = false) new.
Proof.
  intros Hc Hs Hrc. split.
  - unfold EfaEndPoint.submitPostSend. rewrite Hc. simpl. rewrite Hs.
    apply Z.eqb_neq in Hrc. rewrite Hrc. reflexivity.
  - pose proof (setupConnectionsByActive_posts_nothing ctx e w) as Hp.
    rewrite Hs in Hp. exact Hp.
Qed.

(** C4, amended: a request whose declared peer path is not the
    context's own path, or whose declared local path is not the
    endpoint's recorded peer path, is answered with the
    handshake-rejected error and an empty reply payload, without any
    call to the provider.  An endpoint that was not connected is left
    as it was; an endpoint that was connected has been disconnected
    before the paths are compared: its state is UNCONNECTED and its
    peer address handle is unspecified. *)
Theorem setupConnectionsByPassive_mismatch_rejects
    (ctx : EfaContext) (e : EfaEndPoint) (peer_desc local_desc : HandShakeDesc)
    (w : World) :
  (peer_nic_path peer_desc ≠ nicPath ctx
   ∨ local_nic_path peer_desc ≠ peer_nic_path_ e) →
  ∃ e' d,
    EfaEndPoint.setupConnectionsByPassive ctx e peer_desc local_desc w
    = ((ERR_REJECT_HANDSHAKE, e', d), w)
    ∧ reply_msg d = ""
    ∧ (EfaEndPoint.connected e = false → e' = e)
    ∧ (EfaEndPoint.connected e = true →
       e' = EfaEndPoint.disconnectUnlocked e
       ∧ status_ e' = UNCONNECTED ∧ peer_fi_addr_ e' = FI_ADDR_UNSPEC).
Proof.
  intros Hmis.
  exists (if EfaEndPoint.connected e then EfaEndPoint.disconnectUnlocked e else e),
    (EfaEndPoint.set_reply_msg "" local_desc).
  split; [|split; [reflexivity|split]].
  - unfold EfaEndPoint.setupConnectionsByPassive.
    assert (peer_nic_path_
              (if EfaEndPoint.connected e
               then EfaEndPoint.disconnectUnlocked e else e)
            = peer_nic_path_ e) as Hpath
      by (destruct (EfaEndPoint.connected e); reflexivity).
    rewrite Hpath.
    assert (bool_decide (peer_nic_path peer_desc ≠ nicPath ctx)
            || bool_decide (local_nic_path peer_desc ≠ peer_nic_path_ e)
            = true) as ->.
    { apply orb_true_iff. rewrite !bool_decide_eq_true. exact Hmis. }
    reflexivity.
  - intros ->. reflexivity.
  - intros ->. repeat split.
Qed.

(** C5: on an endpoint that is already connected the active
    establishment returns success and changes neither the endpoint nor
    the world.  On an UNCONNECTED endpoint whose peer path is not the
    context's own and parses into a server and a device name, the
    handshake is sent; when the transport returns success with an empty
    address payload the call returns the handshake-rejected error and
    the endpoint is as before, still UNCONNECTED; when the payload is not
    empty and the address-vector insertion succeeds the call returns
    success and the state is CONNECTED. *)
Theorem setupConnectionsByActive_handshake_outcomes
    (ctx : EfaContext) (e : EfaEndPoint) (w : World) :
  let server := getServerNameFromNicPath (peer_nic_path_ e) in
  let request :=
    sendHandshake server
      {| local_nic_path := nicPath ctx;
         peer_nic_path := peer_nic_path_ e;
         reply_msg := EfaEndPoint.getLocalAddr e |} in
  (status_ e = CONNECTED →
   EfaEndPoint.setupConnectionsByActive ctx e w = ((0, e), w))
  ∧ (status_ e = UNCONNECTED →
     nicPath ctx ≠ peer_nic_path_ e →
     server ≠ "" →
     getNicNameFromNicPath (peer_nic_path_ e) ≠ "" →
     ∀ (r : Reply) (e1 : W),
       provider (env w) request = (r, e1) →
       ret r = 0 →
       let w1 := {| env := e1; trace := trace w ++ [request] |} in
       (reply_msg (out_desc r) = "" →
        EfaEndPoint.setupConnectionsByActive ctx e w
        = ((ERR_REJECT_HANDSHAKE, e), w1)
        ∧ status_ e = UNCONNECTED)
       ∧ (reply_msg (out_desc r) ≠ "" →
          ∀ (r2 : Reply) (e2 : W),
            provider e1
              (fi_av_insert (av_ ctx)
                 (Hex.hex_to_bytes (reply_msg (out_desc r)))) = (r2, e2) →
            ret r2 = 1 →
            ∃ e' w',
              EfaEndPoint.setupConnectionsByActive ctx e w = ((0, e'), w')
              ∧ status_ e' = CONNECTED)).
Proof.
  intros server request. split.
  - intros Hc. unfold EfaEndPoint.setupConnectionsByActive.
    apply connected_true in Hc. rewrite Hc. reflexivity.
  - intros Hst Hloop Hsrv Hnic r e1 Hp Hret w1.
    assert (EfaEndPoint.connected e = false) as Hc
      by (apply connected_false; congruence).
    assert (EfaEndPoint.setupConnectionsByActive ctx e w
            = (if bool_decide (reply_msg (out_desc r) = "")
               then mret (ERR_REJECT_HANDSHAKE, e)
               else '(rc, e0) ← EfaEndPoint.insertPeerAddr ctx e
                                  (reply_msg (out_desc r));
                    if negb (rc =? 0) then mret (rc, e0)
                    else mret (0, set_status_ CONNECTED e0)) w1) as Hrun.
    { unfold EfaEndPoint.setupConnectionsByActive. rewrite Hc.
      rewrite bool_decide_eq_false_2 by exact Hloop.
      fold server.
      rewrite (bool_decide_eq_false_2 (server = "")) by exact Hsrv.
      rewrite (bool_decide_eq_false_2 _ Hnic). simpl.
      unfold mbind at 1, M_bind at 1, call at 1.
      fold request. rewrite Hp. rewrite Hret. reflexivity. }
    split.
    + intros Hempty. split; [|exact Hst].
      rewrite Hrun. rewrite bool_decide_eq_true_2 by exact Hempty.
      reflexivity.
    + intros Hne r2 e2 Hp2 Hret2.
      rewrite Hrun. rewrite bool_decide_eq_false_2 by exact Hne.
      unfold mbind, M_bind.
      rewrite (insertPeerAddr_run ctx e _ w1 r2 e2 Hp2).
      rewrite Hret2. simpl. eexists _, _. split; reflexivity.
Qed.

(** C8, amended: on an endpoint that is not connected and whose peer
    path is the context's own path, connection establishment makes one
    call to the outside, the insertion of the endpoint's own local address
    into the context's address vector, and sends no handshake; provided
    this insertion succeeds, the call returns success and the state is
    CONNECTED. *)
Theorem setupConnectionsByActive_loopback
    (ctx : EfaContext) (e : EfaEndPoint) (w : World) (r : Reply) (e1 : W) :
  EfaEndPoint.connected e = false →
  nicPath ctx = peer_nic_path_ e →
  provider (env w) (fi_av_insert (av_ ctx) (local_addr_ e)) = (r, e1) →
  ∃ rc e',
    EfaEndPoint.setupConnectionsByActive ctx e w
    = ((rc, e'),
       {| env := e1;
          trace := trace w ++ [fi_av_insert (av_ ctx) (local_addr_ e)] |})
    ∧ is_sendHandshake (fi_av_insert (av_ ctx) (local_addr_ e)) = false
    ∧ (ret r = 1 → rc = 0 ∧ status_ e' = CONNECTED).
Proof.
  intros Hc Hloop Hp.
  unfold EfaEndPoint.setupConnectionsByActive. rewrite Hc.
  rewrite bool_decide_eq_true_2 by exact Hloop.
  unfold mbind, M_bind.
  assert (Hex.hex_to_bytes (EfaEndPoint.getLocalAddr e) = local_addr_ e) as Hrt
    by apply hex_roundtrip.
  rewrite <- Hrt in Hp.
  rewrite (insertPeerAddr_run ctx e _ w r e1 Hp). rewrite Hrt.
  destruct (ret r =? 1) eqn:Hr.
  - simpl. eexists _, _. split; [reflexivity|]. split; [reflexivity|].
    intros _. split; reflexivity.
  - destruct (negb (ERR_ENDPOINT =? 0)); eexists _, _;
      (split; [reflexivity|]); (split; [reflexivity|]);
      intros Hr1; rewrite Hr1 in Hr; discriminate.
Qed.

(** ** The submission loop *)

Lemma post_loop_unfold (e : EfaEndPoint) (slice_list : list N) (it : nat)
    (failed_slice_list : list N) (heap : SliceHeap) (w : World) :
  EfaEndPoint.post_loop e slice_list it failed_slice_list heap w
  = match slice_list !! it with
    | None => Some (e, slice_list, failed_slice_list, heap, w)
    | Some slice =>
        match heap !! slice with
        | None => None
        | Some s =>
            let '(r, w') := call (fi_write (ep_ e) (source_addr s)
                                    (slice_length s) (peer_fi_addr_ e)
                                    (rdma_dest_addr s) (rdma_dest_rkey s)) w in
            if ret r =? 0 then
              EfaEndPoint.post_loop (set_wr_depth_ (wr_depth_ e + 1) e)
                (delete it slice_list) it failed_slice_list
                (<[slice := markSuccess s]> heap) w'
            else if ret r =? - FI_EAGAIN then
              EfaEndPoint.post_loop e slice_list (S it) failed_slice_list heap w'
            else
              EfaEndPoint.post_loop e (delete it slice_list) it
                (failed_slice_list ++ [slice]) heap w'
        end
    end.
Proof.
  simp post_loop.
  destruct (Logic.inspect (slice_list !! it)) as [[p|] Hp]; simp post_loop;
    symmetry; (etransitivity; [rewrite Hp; cbv beta iota; reflexivity|]);
    [|reflexivity].
  destruct (heap !! p) as [s|]; simp post_loop; [|reflexivity].
  destruct (call _ w) as [r w1]. reflexivity.
Qed.

(** Marking a slice successful does not change what is posted for it. *)
Lemma post_outcomes_marked (ep : handle) (peer : Z) (heap : SliceHeap)
    (q : N) (s : Slice) (l : list N) (w : World) :
  heap !! q = Some s →
  post_outcomes ep peer (<[q := markSuccess s]> heap) l w
  = post_outcomes ep peer heap l w.
Proof.
  intros Hq. revert w. induction l as [|p l IH]; intros w; [reflexivity|].
  cbn [post_outcomes]. rewrite lookup_insert.
  destruct (decide (q = p)) as [->|Hne].
  - rewrite Hq. cbn [markSuccess source_addr slice_length rdma_dest_addr
                     rdma_dest_rkey].
    destruct (call _ w) as [r w1]. rewrite IH. reflexivity.
  - destruct (heap !! p) as [s'|]; [|reflexivity].
    destruct (call _ w) as [r w1]. rewrite IH. reflexivity.
Qed.

Lemma slices_with_cons (o o' : Outcome) (p : N) (os : list (N * Outcome)) :
  slices_with o ((p, o') :: os)
  = if decide (o' = o) then p :: slices_with o os else slices_with o os.
Proof.
  unfold slices_with. destruct (decide (o' = o)) as [Ho|Ho].
  - rewrite filter_cons_True by exact Ho. reflexivity.
  - rewrite filter_cons_False by exact Ho. reflexivity.
Qed.

Lemma set_wr_depth_twice (e : EfaEndPoint) (a b : Z) :
  set_wr_depth_ b (set_wr_depth_ a e) = set_wr_depth_ b e.
Proof. reflexivity. Qed.

(** The iterator loop, started behind a prefix [pre] that is kept,
    agrees with the required classification of the remaining slices. *)
Lemma post_loop_outcomes (rest : list N) :
  ∀ (pre : list N) (e : EfaEndPoint) (failed : list N) (heap : SliceHeap)
    (w w' : World) (os : list (N * Outcome)),
    Forall (λ p, is_Some (heap !! p)) rest →
    post_outcomes (ep_ e) (peer_fi_addr_ e) heap rest w = (os, w') →
    os.*1 = rest
    ∧ EfaEndPoint.post_loop e (pre ++ rest) (List.length pre) failed heap w
      = Some (set_wr_depth_
                (wr_depth_ e + Z.of_nat (List.length (slices_with Posted os))) e,
              pre ++ slices_with QueueFull os,
              failed ++ slices_with HardError os,
              mark_all heap (slices_with Posted os),
              w').
Proof.
  induction rest as [|p rest IH]; intros pre e failed heap w w' os Hal Hos.
  - cbn [post_outcomes] in Hos. injection Hos as <- <-.
    split; [reflexivity|].
    rewrite post_loop_unfold.
    rewrite lookup_ge_None_2 by (rewrite app_nil_r; reflexivity).
    cbn. rewrite Z.add_0_r, !app_nil_r. destruct e; reflexivity.
  - apply Forall_cons in Hal as [[s Hs] Hal].
    cbn [post_outcomes] in Hos. rewrite Hs in Hos.
    rewrite post_loop_unfold, list_lookup_middle by reflexivity.
    rewrite Hs.
    destruct (call _ w) as [r w1].
    destruct (post_outcomes (ep_ e) (peer_fi_addr_ e) heap rest w1)
      as [os' w2] eqn:Hos'.
    injection Hos as <- <-.
    rewrite !slices_with_cons. unfold classify.
    destruct (ret r =? 0) eqn:H0.
    + rewrite delete_middle.
      rewrite <- (post_outcomes_marked _ _ _ _ _ _ _ Hs) in Hos'.
      edestruct (IH pre (set_wr_depth_ (wr_depth_ e + 1) e) failed
                   (<[p := markSuccess s]> heap) w1 w2 os') as [Hfst ->];
        [|exact Hos'|].
      { eapply Forall_impl; [exact Hal|]. intros q Hq. cbn beta in *.
        rewrite lookup_insert. case_decide; eauto. }
      rewrite (decide_True (P := Posted = Posted)) by reflexivity.
      rewrite (decide_False (P := Posted = QueueFull)) by discriminate.
      rewrite (decide_False (P := Posted = HardError)) by discriminate.
      split; [cbn; f_equal; exact Hfst|].
      rewrite (insert_markSuccess _ _ _ Hs).
      do 2 f_equal. cbn [wr_depth_ set_wr_depth_].
      rewrite set_wr_depth_twice.
      replace (wr_depth_ e + 1
               + Z.of_nat (List.length (slices_with Posted os')))
        with (wr_depth_ e
              + Z.of_nat (S (List.length (slices_with Posted os'))))
        by lia.
      reflexivity.
    + destruct (ret r =? - FI_EAGAIN) eqn:H1.
      * rewrite (decide_False (P := QueueFull = Posted)) by discriminate.
        rewrite (decide_True (P := QueueFull = QueueFull)) by reflexivity.
        rewrite (decide_False (P := QueueFull = HardError)) by discriminate.
        edestruct (IH (pre ++ [p]) e failed heap w1 w2 os') as [Hfst Hrun];
          [exact Hal|exact Hos'|].
        split; [cbn; f_equal; exact Hfst|].
        rewrite length_app, Nat.add_1_r, <- app_assoc in Hrun.
        cbn [app] in Hrun. rewrite Hrun.
        rewrite <- app_assoc. reflexivity.
      * rewrite (decide_False (P := HardError = Posted)) by discriminate.
        rewrite (decide_False (P := HardError = QueueFull)) by discriminate.
        rewrite (decide_True (P := HardError = HardError)) by reflexivity.
        rewrite delete_middle.
        edestruct (IH pre e (failed ++ [p]) heap w1 w2 os') as [Hfst ->];
          [exact Hal|exact Hos'|].
        split; [cbn; f_equal; exact Hfst|].
        rewrite <- app_assoc. reflexivity.
Qed.

Lemma slices_with_elem (o : Outcome) (os : list (N * Outcome)) (p : N) :
  p ∈ slices_with o os → p ∈ os.*1.
Proof.
  unfold slices_with. rewrite !list_elem_of_fmap.
  intros [x [-> Hx]]. exists x. split; [reflexivity|].
  apply list_elem_of_filter in Hx as [_ Hx]. exact Hx.
Qed.

(** The counter grows by at most the size of the input list, so a run
    that starts with [wr_depth_ + size] inside the range of the member's
    C++ type never leaves it. *)
Lemma slices_with_length (o : Outcome) (os : list (N * Outcome)) :
  (List.length (slices_with o os) ≤ List.length os.*1)%nat.
Proof.
  unfold slices_with. rewrite !length_fmap. apply length_filter.
Qed.

(** C2: on a connected endpoint whose input slices all exist,
    [submitPostSend] posts every slice of the input list once, in order,
    and returns 0.  With [os] the outcome of each posting: the input
    list that is left holds exactly the slices whose posting returned
    -FI_EAGAIN, in order; the failed list has received exactly the
    slices whose posting returned another error; the slices whose
    posting returned 0 are in neither list and are marked successful,
    no other slice being touched; and the outstanding-work counter has
    grown by the number of postings that returned 0. *)
Theorem submitPostSend_connected_classifies_slices
    (ctx : EfaContext) (e : EfaEndPoint)
    (slice_list failed_slice_list : list N) (heap : SliceHeap)
    (w w' : World) (os : list (N * Outcome)) :
  EfaEndPoint.connected e = true →
  Forall (λ p, is_Some (heap !! p)) slice_list →
  post_outcomes (ep_ e) (peer_fi_addr_ e) heap slice_list w = (os, w') →
  let posted := slices_with Posted os in
  let heap' := mark_all heap posted in
  os.*1 = slice_list
  ∧ EfaEndPoint.submitPostSend ctx e slice_list failed_slice_list heap w
    = Some (0,
            (set_wr_depth_ (wr_depth_ e + Z.of_nat (List.length posted)) e,
             slices_with QueueFull os,
             failed_slice_list ++ slices_with HardError os,
             heap', w'))
  ∧ (∀ p, p ∈ posted → status <$> heap' !! p = Some SUCCESS)
  ∧ (∀ p, p ∉ posted → heap' !! p = heap !! p).
Proof.
  intros Hc Hal Hos posted heap'.
  destruct (post_loop_outcomes slice_list [] e failed_slice_list heap w w' os
              Hal Hos) as [Hfst Hrun].
  split; [exact Hfst|]. split; [|split].
  - unfold EfaEndPoint.submitPostSend. rewrite Hc. cbn [negb].
    cbn [app List.length] in Hrun. rewrite Hrun. reflexivity.
  - intros p Hp. subst heap'. rewrite mark_all_lookup.
    rewrite decide_True by exact Hp.
    apply slices_with_elem in Hp. rewrite Hfst in Hp.
    rewrite Forall_forall in Hal. destruct (Hal p Hp) as [s ->].
    reflexivity.
  - intros p Hp. subst heap'. rewrite mark_all_lookup.
    rewrite decide_False by exact Hp. reflexivity.
Qed.

(** ** Construction of the context *)

(** The completion-queue loop has no release path: whatever happens in
    it, the five handles acquired before it stay as they are. *)
Lemma open_cqs_keeps_handles (n : nat) :
  ∀ (i : nat) (max_cqe : Z) (ctx : EfaContext) (w : World),
    let ctx' := (EfaContext.open_cqs n i max_cqe ctx w).1.2 in
    hints_ ctx' = hints_ ctx ∧ fi_info_ ctx' = fi_info_ ctx
    ∧ fabric_ ctx' = fabric_ ctx ∧ domain_ ctx' = domain_ ctx
    ∧ av_ ctx' = av_ ctx.
Proof.
  induction n as [|n IH]; intros i max_cqe ctx w; cbn.
  - repeat split.
  - run. destruct (provider (env w) _) as [r e1].
    destruct (ret r =? 0); cbn; [|repeat split].
    apply (IH (S i) max_cqe
             (set_cq_list_ (<[i := Some {| cq := out r |}]> (cq_list_ ctx)) ctx)).
Qed.

Lemma open_cqs_trace_extends (n : nat) :
  ∀ (i : nat) (max_cqe : Z) (ctx : EfaContext) (w : World),
    ∃ new, trace (EfaContext.open_cqs n i max_cqe ctx w).2 = trace w ++ new.
Proof.
  induction n as [|n IH]; intros i max_cqe ctx w; cbn.
  - exists []. rewrite app_nil_r. reflexivity.
  - run. destruct (provider (env w) _) as [r e1].
    destruct (ret r =? 0); cbn; [|eexists; reflexivity].
    match goal with |- context [EfaContext.open_cqs n ?j max_cqe ?c ?v] =>
      destruct (IH j max_cqe c v) as [new ->] end.
    cbn. rewrite <- app_assoc. eexists; reflexivity.
Qed.

(** A failure of the completion-queue loop shows in the trace. *)
Lemma open_cqs_failure_calls (n i : nat) (max_cqe : Z) (ctx : EfaContext)
    (w : World) :
  (EfaContext.open_cqs n i max_cqe ctx w).1.1 ≠ 0 →
  ∃ new, trace (EfaContext.open_cqs n i max_cqe ctx w).2
         = trace w ++ fi_cq_open (domain_ ctx) max_cqe :: new.
Proof.
  destruct n as [|n]; cbn.
  - intros Hrc. congruence.
  - intros _. run. destruct (provider (env w) _) as [r e1].
    destruct (ret r =? 0); cbn; [|eexists; reflexivity].
    match goal with |- context [EfaContext.open_cqs n ?j max_cqe ?c ?v] =>
      destruct (open_cqs_trace_extends n j max_cqe c v) as [new ->] end.
    cbn. rewrite <- app_assoc. eexists; reflexivity.
Qed.

(** On a context that has just been created, a failure of [construct]
    that happens before the completion-queue loop leaves every handle
    null and the queue list empty. *)
Lemma construct_failure_before_queues_all_null
    (server_name device_name : string) (num_cq_list num_comp_channels : nat)
    (port gid_index max_cqe max_endpoints : Z) (w : World) :
  let res := EfaContext.construct (EfaContext.new server_name device_name)
               num_cq_list num_comp_channels port gid_index max_cqe
               max_endpoints w in
  ∃ new, trace res.2 = trace w ++ new
    ∧ (res.1.1 ≠ 0 → Forall (λ c, is_fi_cq_open c = false) new →
       hints_ res.1.2 = nullptr ∧ fi_info_ res.1.2 = nullptr
       ∧ fabric_ res.1.2 = nullptr ∧ domain_ res.1.2 = nullptr
       ∧ av_ res.1.2 = nullptr ∧ cq_list_ res.1.2 = []).
Proof.
  unfold EfaContext.construct. run.
  destruct (provider (env w) fi_allocinfo) as [r1 e1].
  destruct (is_null (out r1)) eqn:Hnull; cbn.
  { eexists. split; [reflexivity|]. intros _ _.
    unfold is_null in Hnull. apply N.eqb_eq in Hnull. repeat split; assumption. }
  unfold out_on_success.
  do 4 (step;
        match goal with |- context [ret ?r =? 0] => destruct (ret r =? 0) end;
        cbn;
        [|repeat step; eexists;
          (split; [rewrite <- !app_assoc; reflexivity|]);
          intros _ _; repeat split]).
  match goal with |- context [EfaContext.open_cqs ?n ?j ?m ?c ?v] =>
    set (cc := c); set (vv := v);
    destruct (open_cqs_trace_extends n j m cc vv) as [new Hnew];
    pose proof (open_cqs_failure_calls n j m cc vv) as Hfail end.
  eassert (trace vv = trace w ++ _) as Htr
    by (subst vv; cbn [trace]; rewrite <- !app_assoc; reflexivity).
  rewrite Hnew, Htr, <- app_assoc.
  eexists. split; [reflexivity|].
  intros Hrc Hno. exfalso.
  destruct (Hfail Hrc) as [new' Hnew'].
  rewrite Hnew in Hnew'. apply app_inv_head in Hnew'. subst new.
  apply Forall_app in Hno as [_ Hno]. apply Forall_cons in Hno as [Hno _].
  discriminate Hno.
Qed.

End Properties.

(** * The functions on concrete inputs *)

Import Scripted.

(** C1, failing input: a context that has just been created is
    constructed with one completion queue; the provider grants the
    hints, the fabric information, the fabric, the domain and the address
    vector (handles 1 to 5) and refuses the completion queue.
    [construct] returns its error while all five handles are still set,
    the queue list holds one empty entry, and nothing was closed or
    freed: the last call made is the refused [fi_cq_open]. *)
Theorem construct_cq_failure_leaves_handles :
  EfaContext.construct (H := platform) (EfaContext.new "A" "efa0")
    1 1 1 0 128 64 (world [ok 1; ok 2; ok 3; ok 4; ok 5; fails (-12)])
  = ((@ERR_CONTEXT platform,
      {| local_server_name := "A"; device_name_ := "efa0";
         fi_info_ := 2%N; hints_ := 1%N; fabric_ := 3%N; domain_ := 4%N;
         av_ := 5%N; cq_list_ := [None]; mr_map_ := ∅;
         endpoint_store_ := Some ∅ |}),
     world_after []
       [fi_allocinfo; fi_getinfo 1%N "efa0-rdm"; fi_fabric 2%N;
        fi_domain 3%N 2%N; fi_av_open 4%N 64; fi_cq_open 4%N 128]).
Proof. vm_compute. reflexivity. Qed.

(** The sibling failure paths do release: the same construction with the
    address vector refused ends with every handle null. *)
Example construct_av_failure_releases_all :
  EfaContext.construct (H := platform) (EfaContext.new "A" "efa0")
    1 1 1 0 128 64 (world [ok 1; ok 2; ok 3; ok 4; fails (-12)])
  = ((@ERR_CONTEXT platform,
      {| local_server_name := "A"; device_name_ := "efa0";
         fi_info_ := nullptr; hints_ := nullptr; fabric_ := nullptr;
         domain_ := nullptr; av_ := nullptr; cq_list_ := []; mr_map_ := ∅;
         endpoint_store_ := Some ∅ |}),
     world_after []
       [fi_allocinfo; fi_getinfo 1%N "efa0-rdm"; fi_fabric 2%N;
        fi_domain 3%N 2%N; fi_av_open 4%N 64; fi_close 4%N;
        fi_close 3%N; fi_freeinfo 2%N; fi_freeinfo 1%N]).
Proof. vm_compute. reflexivity. Qed.

(** C4, counterexample: a connected endpoint of A@efa0 towards B@efa0
    receives a request that names C@efa0 as its peer; the request is
    rejected and the endpoint is left UNCONNECTED, not CONNECTED. *)
Lemma passive_mismatch_changes_connected_state :
  ¬ passive_mismatch_keeps_state (H := platform).
Proof.
  intros Hclaim.
  pose (peer_desc := {| local_nic_path := "B@efa0"; peer_nic_path := "C@efa0";
                        reply_msg := "0a0b" |}).
  destruct (Hclaim ctxA (endpoint_to "B@efa0" CONNECTED) peer_desc empty_desc
              (world []) ltac:(left; discriminate) _ _ _ _ eq_refl)
    as (_ & _ & Hst).
  discriminate Hst.
Qed.

(** C8, counterexample: an unconnected endpoint of A@efa0 towards
    A@efa0 itself, with a provider that refuses the address-vector
    insertion (it reports 0 addresses inserted): the state is still
    UNCONNECTED after the call. *)
Lemma loopback_insert_failure_stays_unconnected :
  ¬ loopback_always_connects (H := platform).
Proof.
  intros Hclaim.
  destruct (Hclaim ctxA (endpoint_to "A@efa0" UNCONNECTED)
              (world [inserted 0 0])
              eq_refl eq_refl _ _ _ eq_refl) as [_ Hst].
  discriminate Hst.
Qed.

(** ** Instances of the theorems *)

Lemma submitPostSend_connected_witness :
  EfaEndPoint.submitPostSend (H := platform) ctxA
    (endpoint_to "B@efa0" CONNECTED) [16%N; 32%N; 48%N] [] three_slices
    (world [fails (-11); ok 0; fails (-5)])
  = Some (0,
          (set_wr_depth_ 1 (endpoint_to "B@efa0" CONNECTED),
           [16%N], [48%N], mark_all three_slices [32%N],
           world_after []
             [fi_write 9%N 1000 64 0 66536 77; fi_write 9%N 2000 64 0 67536 77;
              fi_write 9%N 3000 64 0 68536 77]))
  ∧ status <$> mark_all three_slices [32%N] !! 32%N = Some SUCCESS
  ∧ mark_all three_slices [32%N] !! 16%N = three_slices !! 16%N.
Proof.
  destruct (submitPostSend_connected_classifies_slices (H := platform) ctxA
              (endpoint_to "B@efa0" CONNECTED) [16%N; 32%N; 48%N] []
              three_slices (world [fails (-11); ok 0; fails (-5)])
              (world_after []
                 [fi_write 9%N 1000 64 0 66536 77;
                  fi_write 9%N 2000 64 0 67536 77;
                  fi_write 9%N 3000 64 0 68536 77])
              [(16%N, QueueFull); (32%N, Posted); (48%N, HardError)]
              eq_refl
              ltac:(repeat (constructor; [eexists; reflexivity|]); constructor)
              eq_refl)
    as (_ & Hrun & Hmark & Hkeep).
  split; [exact Hrun|]. split.
  - apply Hmark. vm_compute. left.
  - apply Hkeep. vm_compute. intros Hin. inversion Hin as [|? ? ? Hin']. inversion Hin'.
Defined.

Lemma submitPostSend_unconnected_witness :
  EfaEndPoint.submitPostSend (H := platform) ctxA
    (endpoint_to "B@efa0" UNCONNECTED) [16%N; 32%N; 48%N] [64%N] three_slices
    (world [replies 0 empty_desc])
  = Some (@ERR_REJECT_HANDSHAKE platform,
          (endpoint_to "B@efa0" UNCONNECTED, [], [64%N; 16%N; 32%N; 48%N],
           three_slices,
           world_after []
             [sendHandshake "B"
                {| local_nic_path := "A@efa0"; peer_nic_path := "B@efa0";
                   reply_msg := "deadbeef" |}])).
Proof.
  refine (proj1 (submitPostSend_unconnected_moves_all_to_failed (H := platform)
                   ctxA (endpoint_to "B@efa0" UNCONNECTED) _ _ [64%N]
                   three_slices (world [replies 0 empty_desc]) _ _
                   eq_refl eq_refl _)).
  vm_compute. discriminate.
Defined.

Lemma setupConnectionsByPassive_mismatch_witness :
  let peer_desc := {| local_nic_path := "B@efa0"; peer_nic_path := "C@efa0";
                      reply_msg := "0a0b" |} in
  ∃ e' d,
    EfaEndPoint.setupConnectionsByPassive (H := platform) ctxA
      (endpoint_to "B@efa0" CONNECTED) peer_desc empty_desc (world [])
    = ((@ERR_REJECT_HANDSHAKE platform, e', d), world [])
    ∧ reply_msg d = ""
    ∧ status_ e' = UNCONNECTED ∧ peer_fi_addr_ e' = FI_ADDR_UNSPEC.
Proof.
  intros peer_desc.
  destruct (setupConnectionsByPassive_mismatch_rejects (H := platform) ctxA
              (endpoint_to "B@efa0" CONNECTED) peer_desc empty_desc (world [])
              ltac:(left; discriminate))
    as (e' & d & Hrun & Hd & _ & Hconn).
  exists e', d. destruct (Hconn eq_refl) as (_ & Hst & Hfi). auto.
Defined.

Lemma setupConnectionsByActive_handshake_witness :
  (∀ w, EfaEndPoint.setupConnectionsByActive (H := platform) ctxA
          (endpoint_to "B@efa0" CONNECTED) w
        = ((0, endpoint_to "B@efa0" CONNECTED), w))
  ∧ EfaEndPoint.setupConnectionsByActive (H := platform) ctxA
      (endpoint_to "B@efa0" UNCONNECTED) (world [replies 0 empty_desc])
    = ((@ERR_REJECT_HANDSHAKE platform, endpoint_to "B@efa0" UNCONNECTED),
       world_after []
         [sendHandshake "B"
            {| local_nic_path := "A@efa0"; peer_nic_path := "B@efa0";
               reply_msg := "deadbeef" |}])
  ∧ ∃ e' w',
      EfaEndPoint.setupConnectionsByActive (H := platform) ctxA
        (endpoint_to "B@efa0" UNCONNECTED)
        (world [replies 0 {| local_nic_path := "B@efa0";
                             peer_nic_path := "A@efa0";
                             reply_msg := "0a0b" |};
                inserted 1 3])
      = ((0, e'), w')
      ∧ status_ e' = CONNECTED.
Proof.
  split; [|split].
  - intros w.
    exact (proj1 (setupConnectionsByActive_handshake_outcomes (H := platform)
                    ctxA (endpoint_to "B@efa0" CONNECTED) w) eq_refl).
  - destruct (proj2 (setupConnectionsByActive_handshake_outcomes
                       (H := platform) ctxA (endpoint_to "B@efa0" UNCONNECTED)
                       (world [replies 0 empty_desc]))
                eq_refl ltac:(discriminate) ltac:(discriminate)
                ltac:(discriminate) _ _ eq_refl eq_refl) as [Hempty _].
    exact (proj1 (Hempty eq_refl)).
  - destruct (proj2 (setupConnectionsByActive_handshake_outcomes
                       (H := platform) ctxA (endpoint_to "B@efa0" UNCONNECTED)
                       (world [replies 0 {| local_nic_path := "B@efa0";
                                            peer_nic_path := "A@efa0";
                                            reply_msg := "0a0b" |};
                               inserted 1 3]))
                eq_refl ltac:(discriminate) ltac:(discriminate)
                ltac:(discriminate) _ _ eq_refl eq_refl) as [_ Hfull].
    exact (Hfull ltac:(discriminate) _ _ eq_refl eq_refl).
Defined.

Lemma unregisterMemoryRegion_witness :
  @ERR_CONTEXT platform ≠ 0
  ∧ EfaContext.unregisterMemoryRegion (H := platform) ctxA 8192 (world [])
    = ((0, ctxA), world [])
  ∧ EfaContext.unregisterMemoryRegion (H := platform) ctx_registered 8192
      (world [ok 0])
    = ((0, ctxA), world_after [] [fi_close 21%N])
  ∧ EfaContext.rkey (H := platform) ctx_registered 8192 (world [])
    = (99, world [])
  ∧ EfaContext.rkey (H := platform) ctxA 8192 (world []) = (0, world [])
  ∧ EfaContext.lkey (H := platform) ctxA 8192 (world []) = (0, world []).
Proof.
  assert (@ERR_CONTEXT platform ≠ 0) as Hne by discriminate.
  destruct (unregisterMemoryRegion_absent_noop_and_keys_zero (H := platform)
              ctxA 8192 (world []) Hne) as [Habs _].
  destruct (unregisterMemoryRegion_absent_noop_and_keys_zero (H := platform)
              ctx_registered 8192 (world [ok 0]) Hne) as [_ Hafter].
  assert (EfaContext.unregisterMemoryRegion (H := platform) ctx_registered
            8192 (world [ok 0])
          = ((0, ctxA), world_after [] [fi_close 21%N])) as Hrun
    by (vm_compute; reflexivity).
  destruct (Hafter _ _ Hrun (world [])) as (Hr & Hl & _).
  split; [exact Hne|]. split; [exact (Habs eq_refl)|].
  split; [exact Hrun|]. split; [reflexivity|]. split; [exact Hr|exact Hl].
Defined.

Lemma registerMemoryRegion_witness :
  (∃ ctx' w' m,
     EfaContext.registerMemoryRegion (H := platform) ctxA 8192 10000 0
       (world [ok 21; ok 99])
     = ((0, ctx'), w')
     ∧ mr_map_ ctx' !! 8192 = Some m
     ∧ mr_length m = 4096)
  ∧ (∃ ctx' w' m,
       EfaContext.registerMemoryRegion (H := platform) ctxA 8192 512 0
         (world [ok 21; ok 99])
       = ((0, ctx'), w')
       ∧ mr_map_ ctx' !! 8192 = Some m
       ∧ mr_length m = 512).
Proof.
  split.
  - destruct (registerMemoryRegion_clamps_length (H := platform) ctxA 8192
                10000 0 (world [ok 21; ok 99]) (ok 21) [ok 99] eq_refl eq_refl)
      as (ctx' & w' & m & Hrun & Hm & Hbig & _).
    exists ctx', w', m. split; [exact Hrun|]. split; [exact Hm|].
    apply Hbig. reflexivity.
  - destruct (registerMemoryRegion_clamps_length (H := platform) ctxA 8192
                512 0 (world [ok 21; ok 99]) (ok 21) [ok 99] eq_refl eq_refl)
      as (ctx' & w' & m & Hrun & Hm & _ & Hsmall).
    exists ctx', w', m. split; [exact Hrun|]. split; [exact Hm|].
    apply Hsmall. discriminate.
Defined.

Lemma setupConnectionsByActive_loopback_witness :
  ∃ e',
    EfaEndPoint.setupConnectionsByActive (H := platform) ctxA
      (endpoint_to "A@efa0" UNCONNECTED)
      (world [inserted 1 0])
    = ((0, e'),
       world_after [] [fi_av_insert 5%N [xde; xad; xbe; xef]])
    ∧ status_ e' = CONNECTED.
Proof.
  destruct (setupConnectionsByActive_loopback (H := platform) ctxA
              (endpoint_to "A@efa0" UNCONNECTED)
              (world [inserted 1 0]) _ _ eq_refl eq_refl eq_refl)
    as (rc & e' & Hrun & _ & Hok).
  destruct (Hok eq_refl) as [-> Hst].
  exists e'. split; [exact Hrun|exact Hst].
Defined.

Lemma context_submitPostSend_witness :
  ∃ heap',
    EfaContext.submitPostSend (H := platform) ctxA [16%N; 0%N; 32%N]
      three_slices (world [])
    = (Some (0, heap'), world [])
    ∧ status <$> heap' !! 16%N = Some SUCCESS
    ∧ status <$> heap' !! 32%N = Some SUCCESS
    ∧ heap' !! 48%N = three_slices !! 48%N.
Proof.
  assert (∀ p : N, p ∈ [16%N; 0%N; 32%N] → p ≠ 0%N →
                   is_Some (three_slices !! p)) as Hal.
  { intros p Hp Hp0.
    repeat (apply elem_of_cons in Hp as [->|Hp];
            [try (eexists; reflexivity); congruence|]).
    inversion Hp. }
  destruct (context_submitPostSend_marks_every_slice (H := platform) ctxA
              [16%N; 0%N; 32%N] three_slices (world []) Hal)
    as (heap' & Hrun & Hmark & Hkeep).
  exists heap'. split; [exact Hrun|].
  split; [apply Hmark; [left|discriminate]|].
  split; [apply Hmark; [right; right; left|discriminate]|].
  apply Hkeep. left. intros Hin.
  repeat (apply elem_of_cons in Hin as [Hin|Hin]; [discriminate Hin|]).
  inversion Hin.
Defined.

Lemma endpoint_without_completion_queue_witness :
  ∃ l e,
    EfaContext.endpoint (H := platform) ctxA ∅ "B@efa0" (world [])
    = ((Some l,
        set_endpoint_store_ (Some (<["B@efa0" := Some l]> ∅)) ctxA,
        <[l := e]> ∅), world [])
    ∧ status_ e = INITIALIZING
    ∧ ep_ e = nullptr
    ∧ peer_nic_path_ e = "B@efa0".
Proof.
  destruct (endpoint_without_completion_queue_unconstructed (H := platform)
              ctxA ∅ "B@efa0" (world []) ∅ eq_refl eq_refl
              ltac:(left; reflexivity))
    as (l & e & Hrun & _ & Hst & Hep & Hpath).
  exists l, e. auto.
Defined.

(** ** Hexadecimal addresses on concrete inputs *)

Example hex_of_bytes_ex : Hex.hex_of_bytes [x0a; xff; x00] = "0aff00"%string.
Proof. reflexivity. Qed.

Example hex_to_bytes_ex : Hex.hex_to_bytes "0aFf7" = [x0a; xff; x07].
Proof. reflexivity. Qed.

Example hex_to_bytes_sign : Hex.hex_to_bytes "-1 fzz" = [xff; x0f; x00].
Proof. reflexivity. Qed.

(** * Further properties *)

Section Further.
Context `{Platform}.

Ltac run :=
  unfold mbind, M_bind, mret, M_ret, call in *; simpl in *.

Ltac step :=
  match goal with
  | |- context [provider ?e ?c] => destruct (provider e c) as [? ?]; cbn
  end.

Ltac case_ifs :=
  repeat match goal with
         | |- context [if ?b then _ else _] => destruct b; simpl
         end.

(** ** Hexadecimal addresses *)

Lemma hex_of_byte_shape (b : byte) :
  ∃ c1 c2, Hex.hex_of_byte b = String c1 (String c2 EmptyString)
           ∧ is_lower_hex c1 = true ∧ is_lower_hex c2 = true.
Proof. destruct b; eexists _, _; repeat split. Qed.

Lemma hex_of_bytes_cons (b : byte) (l : list byte) :
  Hex.hex_of_bytes (b :: l) = Hex.hex_of_byte b +:+ Hex.hex_of_bytes l.
Proof. reflexivity. Qed.

(** X1: what one endpoint renders with [getLocalAddr] is decoded by
    [insertPeerAddr] into the very bytes of the rendered address: the
    one call made is the insertion of [local_addr_] of the sender into
    the receiver's address vector. *)
Theorem insertPeerAddr_of_getLocalAddr
    (ctx : EfaContext) (sender receiver : EfaEndPoint) (w : World) :
  trace (EfaEndPoint.insertPeerAddr ctx receiver
           (EfaEndPoint.getLocalAddr sender) w).2
  = trace w ++ [fi_av_insert (av_ ctx) (local_addr_ sender)].
Proof.
  unfold EfaEndPoint.insertPeerAddr, EfaEndPoint.getLocalAddr. run.
  rewrite hex_roundtrip. step. case_ifs; reflexivity.
Qed.

(** X2: [getLocalAddr] renders two characters per address byte, and
    every character is a digit or a lower-case letter from a to f. *)
Theorem getLocalAddr_two_lower_hex_digits_per_byte (e : EfaEndPoint) :
  String.length (EfaEndPoint.getLocalAddr e)
  = (2 * List.length (local_addr_ e))%nat
  ∧ Forall (λ a, is_lower_hex a = true)
      (list_ascii_of_string (EfaEndPoint.getLocalAddr e)).
Proof.
  unfold EfaEndPoint.getLocalAddr.
  induction (local_addr_ e) as [|b l [IHlen IHall]].
  - split; [reflexivity|constructor].
  - rewrite hex_of_bytes_cons.
    destruct (hex_of_byte_shape b) as (c1 & c2 & -> & H1 & H2).
    change (String c1 (String c2 EmptyString) +:+ Hex.hex_of_bytes l)
      with (String c1 (String c2 (Hex.hex_of_bytes l))).
    cbn [String.length list_ascii_of_string List.length].
    split; [rewrite IHlen; lia|].
    repeat (constructor; [assumption|]). exact IHall.
Qed.

Lemma hex_to_bytes_length_aux (s : string) :
  List.length (Hex.hex_to_bytes s) = Nat.div2 (S (String.length s))
  ∧ ∀ a, List.length (Hex.hex_to_bytes (String a s))
         = Nat.div2 (S (S (String.length s))).
Proof.
  induction s as [|b s [IH1 IH2]].
  - split; [reflexivity|intros a; reflexivity].
  - split; [apply IH2|]. intros a.
    cbn [Hex.hex_to_bytes String.length List.length Nat.div2].
    rewrite IH1. reflexivity.
Qed.

(** X3: the decoding loop of [insertPeerAddr] accepts every string: it
    yields one byte for every two characters, and one more for the last
    character of a string of odd length. *)
Theorem hex_to_bytes_length (s : string) :
  List.length (Hex.hex_to_bytes s) = Nat.div2 (S (String.length s)).
Proof. apply hex_to_bytes_length_aux. Qed.

(** ** Memory-region registry *)

(** [registerMemoryRegion] when the provider accepts. *)
Lemma registerMemoryRegion_accepted (ctx : EfaContext)
    (addr length access : Z) (w : World) (r : Reply) (e1 : W) :
  provider (env w) (fi_mr_reg (domain_ ctx) addr (clamped length) full_access)
    = (r, e1) →
  ret r = 0 →
  EfaContext.registerMemoryRegion ctx addr length access w
  = ((0,
      set_mr_map_
        (<[addr := {| mr_addr := addr; mr_length := clamped length;
                      mr := out r;
                      key := Z.of_N
                               (out (provider e1 (fi_mr_key (out r))).1) |}]>
           (mr_map_ ctx)) ctx),
     {| env := (provider e1 (fi_mr_key (out r))).2;
        trace := trace w
                 ++ [fi_mr_reg (domain_ ctx) addr (clamped length) full_access;
                     fi_mr_key (out r)] |}).
Proof.
  intros Hp Hr.
  unfold EfaContext.registerMemoryRegion,
    EfaContext.registerMemoryRegionInternal.
  run. fold (clamped length). fold full_access. rewrite Hp. cbn.
  unfold out_on_success. rewrite Hr. cbn.
  destruct (provider e1 (fi_mr_key (out r))) as [k e2]. cbn.
  rewrite <- app_assoc. reflexivity.
Qed.

Lemma rkey_lookup (ctx : EfaContext) (addr : Z) (w : World)
    (m : EfaMemoryRegionMeta) :
  mr_map_ ctx !! addr = Some m →
  EfaContext.rkey ctx addr w = (if is_null (mr m) then 0 else key m, w).
Proof.
  intros E. unfold EfaContext.rkey. rewrite E.
  destruct (is_null (mr m)); reflexivity.
Qed.

Lemma set_mr_map_same (ctx : EfaContext) :
  set_mr_map_ (mr_map_ ctx) ctx = ctx.
Proof. destruct ctx; reflexivity. Qed.

(** X4: when the provider refuses the registration,
    [registerMemoryRegion] returns ERR_CONTEXT, the context (registry
    included) is as before (ERR_CONTEXT being an error code, not 0), and
    the key of the region is never asked
    for: the refused [fi_mr_reg] is the only call. *)
Theorem registerMemoryRegion_refused_changes_nothing
    (ctx : EfaContext) (addr length access : Z) (w : World)
    (r : Reply) (e1 : W) :
  ERR_CONTEXT ≠ 0 →
  provider (env w) (fi_mr_reg (domain_ ctx) addr (clamped length) full_access)
    = (r, e1) →
  ret r ≠ 0 →
  EfaContext.registerMemoryRegion ctx addr length access w
  = ((ERR_CONTEXT, ctx),
     {| env := e1;
        trace := trace w
                 ++ [fi_mr_reg (domain_ ctx) addr (clamped length)
                       full_access] |}).
Proof.
  intros Hne Hp Hr.
  unfold EfaContext.registerMemoryRegion,
    EfaContext.registerMemoryRegionInternal.
  run. fold (clamped length). fold full_access. rewrite Hp. cbn.
  apply Z.eqb_neq in Hr, Hne. rewrite Hr. cbn. rewrite Hne. reflexivity.
Qed.

(** X5: after a registration that the provider accepted, [rkey] of the
    address is the key that [fi_mr_key] gave for the new handle, or 0 if
    the provider handed out a null handle; [rkey] of every other address
    is what it was. *)
Theorem registerMemoryRegion_then_rkey
    (ctx : EfaContext) (addr length access : Z) (w : World)
    (r k : Reply) (e1 e2 : W) :
  provider (env w) (fi_mr_reg (domain_ ctx) addr (clamped length) full_access)
    = (r, e1) →
  ret r = 0 →
  provider e1 (fi_mr_key (out r)) = (k, e2) →
  ∃ ctx' w',
    EfaContext.registerMemoryRegion ctx addr length access w = ((0, ctx'), w')
    ∧ (∀ w2, EfaContext.rkey ctx' addr w2
             = (if is_null (out r) then 0 else Z.of_N (out k), w2))
    ∧ (∀ other w2, other ≠ addr →
         EfaContext.rkey ctx' other w2 = EfaContext.rkey ctx other w2).
Proof.
  intros Hp Hr Hk. rewrite (registerMemoryRegion_accepted _ _ _ _ _ _ _ Hp Hr).
  rewrite Hk. cbn. eexists _, _. split; [reflexivity|]. split.
  - intros w2. erewrite rkey_lookup by apply lookup_insert_eq. reflexivity.
  - intros other w2 Hne. unfold EfaContext.rkey. cbn.
    rewrite lookup_insert_ne by congruence. reflexivity.
Qed.

(** X6: registering an address that had no entry and unregistering it
    again gives back the context as it was: the handle that
    [fi_mr_reg] returned is the one that is closed, and the registry is
    the old one. *)
Theorem registerMemoryRegion_then_unregister
    (ctx : EfaContext) (addr length access : Z) (w : World)
    (r k c : Reply) (e1 e2 e3 : W) :
  mr_map_ ctx !! addr = None →
  provider (env w) (fi_mr_reg (domain_ ctx) addr (clamped length) full_access)
    = (r, e1) →
  ret r = 0 →
  out r ≠ nullptr →
  provider e1 (fi_mr_key (out r)) = (k, e2) →
  provider e2 (fi_close (out r)) = (c, e3) →
  ret c = 0 →
  ∃ ctx' w',
    EfaContext.registerMemoryRegion ctx addr length access w = ((0, ctx'), w')
    ∧ EfaContext.unregisterMemoryRegion ctx' addr w'
      = ((0, ctx),
         {| env := e3;
            trace := trace w
                     ++ [fi_mr_reg (domain_ ctx) addr (clamped length)
                           full_access;
                         fi_mr_key (out r); fi_close (out r)] |}).
Proof.
  intros Habs Hp Hr Hnn Hk Hc Hrc.
  rewrite (registerMemoryRegion_accepted _ _ _ _ _ _ _ Hp Hr).
  rewrite Hk. cbn. eexists _, _. split; [reflexivity|].
  unfold EfaContext.unregisterMemoryRegion. cbn.
  rewrite lookup_insert_eq. cbn.
  apply is_null_false in Hnn. rewrite Hnn. run. rewrite Hc, Hrc. cbn.
  rewrite delete_insert_id by exact Habs.
  rewrite <- app_assoc. cbn.
  f_equal. f_equal. destruct ctx; reflexivity.
Qed.

(** X7: registering an address that already has an entry replaces the
    entry by one with the new handle; the handle of the old entry is not
    closed (the calls made are [fi_mr_reg] and [fi_mr_key] only), and
    the registry has as many entries as before. *)
Theorem registerMemoryRegion_again_drops_old_handle
    (ctx : EfaContext) (addr length access : Z) (w : World)
    (old : EfaMemoryRegionMeta) (r : Reply) (e1 : W) :
  mr_map_ ctx !! addr = Some old →
  provider (env w) (fi_mr_reg (domain_ ctx) addr (clamped length) full_access)
    = (r, e1) →
  ret r = 0 →
  ∃ ctx' w' m,
    EfaContext.registerMemoryRegion ctx addr length access w = ((0, ctx'), w')
    ∧ mr_map_ ctx' !! addr = Some m ∧ mr m = out r
    ∧ size (mr_map_ ctx') = size (mr_map_ ctx)
    ∧ trace w'
      = trace w ++ [fi_mr_reg (domain_ ctx) addr (clamped length) full_access;
                    fi_mr_key (out r)]
    ∧ Forall (λ c, is_release c = false)
        [fi_mr_reg (domain_ ctx) addr (clamped length) full_access;
         fi_mr_key (out r)].
Proof.
  intros Hold Hp Hr.
  rewrite (registerMemoryRegion_accepted _ _ _ _ _ _ _ Hp Hr).
  eexists _, _, _. split; [reflexivity|]. cbn.
  split; [apply lookup_insert_eq|]. split; [reflexivity|].
  split; [|split; [reflexivity|repeat constructor]].
  rewrite <- (insert_id (mr_map_ ctx) addr old Hold) at 2.
  rewrite <- (insert_delete_eq (mr_map_ ctx)).
  rewrite <- (insert_delete_eq (mr_map_ ctx) addr old).
  rewrite !map_size_insert_None by apply lookup_delete_eq. reflexivity.
Qed.

(** X8: when the provider fails to close the handle of a registered
    region, [unregisterMemoryRegion] returns ERR_CONTEXT and the entry
    stays: the context is as before and [rkey] still answers the key. *)
Theorem unregisterMemoryRegion_close_failure_keeps_entry
    (ctx : EfaContext) (addr : Z) (w : World) (m : EfaMemoryRegionMeta)
    (c : Reply) (e1 : W) :
  mr_map_ ctx !! addr = Some m →
  mr m ≠ nullptr →
  provider (env w) (fi_close (mr m)) = (c, e1) →
  ret c ≠ 0 →
  EfaContext.unregisterMemoryRegion ctx addr w
  = ((ERR_CONTEXT, ctx),
     {| env := e1; trace := trace w ++ [fi_close (mr m)] |})
  ∧ ∀ w2, EfaContext.rkey ctx addr w2 = (key m, w2).
Proof.
  intros Hm Hnn Hc Hrc. apply is_null_false in Hnn. split.
  - unfold EfaContext.unregisterMemoryRegion. rewrite Hm, Hnn. run.
    rewrite Hc. cbn. apply Z.eqb_neq in Hrc. rewrite Hrc. reflexivity.
  - intros w2. rewrite (rkey_lookup _ _ _ _ Hm), Hnn. reflexivity.
Qed.

(** ** Construction of an endpoint *)

(** Case analysis of a run of [EfaEndPoint.construct] given as an
    equation [Hrun]: one goal per exit of the function. *)
Ltac construct_cases Hst Hrun :=
  unfold EfaEndPoint.construct, EfaEndPoint.close_and_fail in Hrun;
  rewrite Hst in Hrun;
  change (bool_decide (INITIALIZING ≠ INITIALIZING)) with false in Hrun;
  unfold mbind, M_bind, mret, M_ret, call in Hrun; cbn in Hrun;
  repeat
    (match type of Hrun with
     | context [provider ?e ?c] =>
         let r := fresh "r" in
         let e' := fresh "e" in
         let Hp := fresh "Hp" in
         destruct (provider e c) as [r e'] eqn:Hp; cbn in Hrun
     end;
     try match type of Hrun with
         | context [ret ?r =? 0] =>
             let Hr := fresh "Hr" in
             destruct (ret r =? 0) eqn:Hr; cbn in Hrun
         end);
  let Hw := fresh "Hw" in
  let He := fresh "He" in
  let Hrc := fresh "Hrc" in
  apply pair_equal_spec in Hrun as [Hrun Hw];
  apply pair_equal_spec in Hrun as [Hrc He];
  try (symmetry in Hw, He; subst).

(** X9: a construction that returns 0 (ERR_ENDPOINT being an error
    code, not 0) leaves the endpoint UNCONNECTED, bound to the given
    completion queue for both directions, with the given work-request
    depth and with an address buffer as long as the address length the
    provider reported; it has made exactly the six provider calls of
    [construct_calls], none of them a release, and has not touched the
    peer path, the peer handle or the outstanding-work counter. *)
Theorem endpoint_construct_success
    (ctx : EfaContext) (e e' : EfaEndPoint) (c : handle) (max_wr : Z)
    (w w' : World) :
  status_ e = INITIALIZING →
  ERR_ENDPOINT ≠ 0 →
  EfaEndPoint.construct ctx e c max_wr w = ((0, e'), w') →
  status_ e' = UNCONNECTED
  ∧ tx_cq_ e' = c ∧ rx_cq_ e' = c ∧ max_wr_depth_ e' = max_wr
  ∧ List.length (local_addr_ e') = Z.to_nat (local_addr_len_ e')
  ∧ trace w' = trace w ++ construct_calls ctx c (ep_ e')
  ∧ wr_depth_ e' = wr_depth_ e
  ∧ peer_nic_path_ e' = peer_nic_path_ e
  ∧ peer_fi_addr_ e' = peer_fi_addr_ e.
Proof.
  intros Hst Hne Hrun.
  construct_cases Hst Hrun; try congruence.
  unfold out_on_success. rewrite Hr. cbn.
  rewrite length_resize, <- !app_assoc. repeat split.
Qed.

(** X10: a construction of a new endpoint that returns an error leaves
    it INITIALIZING with no provider endpoint object, so that it can be
    constructed again; and it does not leak: when [fi_endpoint] had
    handed out an object, the last call is the [fi_close] of that very
    object and nothing was released before; when [fi_endpoint] itself
    failed, no further call was made. *)
Theorem endpoint_construct_failure_releases
    (ctx : EfaContext) (e e' : EfaEndPoint) (c : handle) (max_wr rc : Z)
    (w w' : World) :
  status_ e = INITIALIZING →
  ep_ e = nullptr →
  EfaEndPoint.construct ctx e c max_wr w = ((rc, e'), w') →
  rc ≠ 0 →
  let created := fi_endpoint (domain_ ctx) (fi_info_ ctx) in
  let r := (provider (env w) created).1 in
  status_ e' = INITIALIZING
  ∧ ep_ e' = nullptr
  ∧ if ret r =? 0
    then ∃ mid, trace w' = trace w ++ created :: mid ++ [fi_close (out r)]
                ∧ Forall (λ c, is_release c = false) mid
    else trace w' = trace w ++ [created].
Proof.
  intros Hst Hep Hrun Hrc created r. subst created r.
  construct_cases Hst Hrun; try congruence;
    cbn [fst]; unfold out_on_success;
    match goal with Hr : (ret _ =? 0) = _ |- _ => rewrite Hr end;
    cbn; (split; [exact Hst|]); (split; [try exact Hep; reflexivity|]);
    first [ reflexivity
          | exists []; split;
            [rewrite <- ?app_assoc; reflexivity|constructor]
          | eexists [_]; split;
            [rewrite <- ?app_assoc; reflexivity|repeat constructor]
          | eexists [_; _]; split;
            [rewrite <- ?app_assoc; reflexivity|repeat constructor]
          | eexists [_; _; _]; split;
            [rewrite <- ?app_assoc; reflexivity|repeat constructor]
          | eexists [_; _; _; _]; split;
            [rewrite <- ?app_assoc; reflexivity|repeat constructor]
          | eexists [_; _; _; _; _]; split;
            [rewrite <- ?app_assoc; reflexivity|repeat constructor] ].
Qed.

(** X11: an endpoint is constructed once: after a construction that
    returned 0, every further [construct] returns ERR_ENDPOINT, makes no
    call and leaves the endpoint as it is. *)
Theorem endpoint_construct_only_once
    (ctx : EfaContext) (e e' : EfaEndPoint) (c : handle) (max_wr : Z)
    (w w' : World) :
  status_ e = INITIALIZING →
  ERR_ENDPOINT ≠ 0 →
  EfaEndPoint.construct ctx e c max_wr w = ((0, e'), w') →
  ∀ (ctx2 : EfaContext) (c2 : handle) (max_wr2 : Z) (w2 : World),
    EfaEndPoint.construct ctx2 e' c2 max_wr2 w2 = ((ERR_ENDPOINT, e'), w2).
Proof.
  intros Hst Hne Hrun ctx2 c2 max_wr2 w2.
  assert (status_ e' = UNCONNECTED) as Hst'.
  { construct_cases Hst Hrun; try congruence. reflexivity. }
  unfold EfaEndPoint.construct. rewrite Hst'. reflexivity.
Qed.

(** X12: [deconstruct] (and [destroyQP], which is the same) returns 0,
    closes the provider endpoint object if there is one and forgets it,
    and leaves the connection state alone; run again, it makes no call
    and changes nothing. *)
Theorem endpoint_deconstruct_closes_once (e : EfaEndPoint) (w : World) :
  let res := EfaEndPoint.deconstruct e w in
  res.1.1 = 0
  ∧ ep_ res.1.2 = nullptr
  ∧ status_ res.1.2 = status_ e
  ∧ trace res.2
    = trace w ++ (if is_null (ep_ e) then [] else [fi_close (ep_ e)])
  ∧ EfaEndPoint.deconstruct res.1.2 res.2 = ((0, res.1.2), res.2)
  ∧ EfaEndPoint.destroyQP e w = res.
Proof.
  unfold EfaEndPoint.destroyQP, EfaEndPoint.deconstruct.
  destruct (is_null (ep_ e)) eqn:Hn; run.
  - rewrite Hn, app_nil_r. repeat split.
    unfold is_null in Hn. apply N.eqb_eq in Hn. exact Hn.
  - step. repeat split.
Qed.

(** ** Connection state machine, continued *)

Lemma same_resources_refl (e : EfaEndPoint) : same_resources e e.
Proof. repeat split. Qed.

(** X13: [setPeerNicPath] records the path and leaves the endpoint not
    connected, whatever it was: a connected endpoint is disconnected
    first (state UNCONNECTED, peer handle unspecified), even when the
    path it is given is the one it already had; an endpoint that was not
    connected only has its path changed. *)
Theorem setPeerNicPath_disconnects (e : EfaEndPoint) (peer_nic_path : string) :
  let e' := EfaEndPoint.setPeerNicPath e peer_nic_path in
  peer_nic_path_ e' = peer_nic_path
  ∧ EfaEndPoint.connected e' = false
  ∧ (EfaEndPoint.connected e = true →
     status_ e' = UNCONNECTED ∧ peer_fi_addr_ e' = FI_ADDR_UNSPEC)
  ∧ (EfaEndPoint.connected e = false →
     e' = set_peer_nic_path_ peer_nic_path e)
  ∧ ep_ e' = ep_ e ∧ local_addr_ e' = local_addr_ e
  ∧ wr_depth_ e' = wr_depth_ e.
Proof.
  unfold EfaEndPoint.setPeerNicPath.
  destruct (EfaEndPoint.connected e) eqn:Hc; cbn.
  - repeat split; congruence.
  - repeat split; try congruence. exact Hc.
Qed.

(** The two exits of "insert the address, then mark connected". *)
Lemma insert_then_connect (ctx : EfaContext) (e e' : EfaEndPoint) (a : string)
    (v v' : World) (rc : Z) :
  ('(rc, e0) ← EfaEndPoint.insertPeerAddr ctx e a;
   if negb (rc =? 0) then mret (rc, e0)
   else mret (0, set_status_ CONNECTED e0)) v = ((rc, e'), v') →
  ∃ h, (rc ≠ 0 ∧ e' = set_peer_fi_addr_ h e)
       ∨ (rc = 0 ∧ e' = set_status_ CONNECTED (set_peer_fi_addr_ h e)).
Proof.
  unfold EfaEndPoint.insertPeerAddr. intros Hrun. run.
  destruct (provider (env v) _) as [r e1]. exists (Z.of_N (out r)).
  destruct (ret r =? 1); cbn in Hrun.
  - right. injection Hrun as <- <- _. split; reflexivity.
  - destruct (ERR_ENDPOINT =? 0) eqn:He; cbn in Hrun.
    + right. injection Hrun as <- <- _. split; reflexivity.
    + left. injection Hrun as <- <- _.
      split; [apply Z.eqb_neq; exact He|reflexivity].
Qed.

(** The exits of [setupConnectionsByActive]. *)
Lemma active_outcome (ctx : EfaContext) (e e' : EfaEndPoint) (w w' : World)
    (rc : Z) :
  EfaEndPoint.setupConnectionsByActive ctx e w = ((rc, e'), w') →
  (EfaEndPoint.connected e = true ∧ rc = 0 ∧ e' = e)
  ∨ (EfaEndPoint.connected e = false ∧ e' = e
     ∧ (rc = ERR_INVALID_ARGUMENT ∨ rc = ERR_REJECT_HANDSHAKE ∨ rc ≠ 0))
  ∨ (EfaEndPoint.connected e = false
     ∧ ∃ h, (rc ≠ 0 ∧ e' = set_peer_fi_addr_ h e)
            ∨ (rc = 0 ∧ e' = set_status_ CONNECTED (set_peer_fi_addr_ h e))).
Proof.
  unfold EfaEndPoint.setupConnectionsByActive. intros Hrun.
  destruct (EfaEndPoint.connected e) eqn:Hc.
  { left. injection Hrun as <- <- _. repeat split. }
  right.
  case_bool_decide.
  { right. split; [reflexivity|]. eapply insert_then_connect. exact Hrun. }
  destruct (_ || _).
  { left. injection Hrun as <- <- _.
    split; [reflexivity|]. split; [reflexivity|]. left. reflexivity. }
  unfold mbind at 1 in Hrun. unfold M_bind at 1 in Hrun.
  unfold call at 1 in Hrun.
  destruct (provider (env w) _) as [r e1].
  destruct (ret r =? 0) eqn:Hr; cbn [negb] in Hrun.
  2:{ left. injection Hrun as <- <- _.
      split; [reflexivity|]. split; [reflexivity|].
      right. right. apply Z.eqb_neq. exact Hr. }
  case_bool_decide.
  { left. injection Hrun as <- <- _.
    split; [reflexivity|]. split; [reflexivity|].
    right. left. reflexivity. }
  right. split; [reflexivity|]. eapply insert_then_connect. exact Hrun.
Qed.

(** X14: connection establishment by [setupConnectionsByActive] writes
    only the connection state and the peer handle: the provider endpoint
    object, the completion queues, the local address, the counters and
    the peer path are as before, and the state afterwards is either the
    state before or CONNECTED.  It does not ask for the endpoint to be
    constructed: an INITIALIZING endpoint can become CONNECTED. *)
Theorem setupConnectionsByActive_frame
    (ctx : EfaContext) (e : EfaEndPoint) (w : World) :
  let e' := (EfaEndPoint.setupConnectionsByActive ctx e w).1.2 in
  same_resources e e'
  ∧ (status_ e' = status_ e ∨ status_ e' = CONNECTED).
Proof.
  intros e'. subst e'.
  destruct (EfaEndPoint.setupConnectionsByActive ctx e w)
    as [[rc e'] w'] eqn:Hrun. cbn [fst snd].
  destruct (active_outcome _ _ _ _ _ _ Hrun)
    as [(_ & _ & ->)|[(_ & -> & _)|(_ & h & [[_ ->]|[_ ->]])]].
  - split; [apply same_resources_refl|left; reflexivity].
  - split; [apply same_resources_refl|left; reflexivity].
  - split; [repeat split|left; reflexivity].
  - split; [repeat split|right; reflexivity].
Qed.

(** X15: with ERR_INVALID_ARGUMENT and ERR_REJECT_HANDSHAKE being error
    codes (not 0), [setupConnectionsByActive] returns 0 exactly when the
    endpoint is CONNECTED afterwards, and a call that returns an error
    leaves the connection state as it was. *)
Theorem setupConnectionsByActive_zero_iff_connected
    (ctx : EfaContext) (e : EfaEndPoint) (w : World) :
  ERR_INVALID_ARGUMENT ≠ 0 →
  ERR_REJECT_HANDSHAKE ≠ 0 →
  let res := EfaEndPoint.setupConnectionsByActive ctx e w in
  (res.1.1 = 0 ↔ status_ res.1.2 = CONNECTED)
  ∧ (res.1.1 ≠ 0 → status_ res.1.2 = status_ e).
Proof.
  intros Hia Hrh res. subst res.
  destruct (EfaEndPoint.setupConnectionsByActive ctx e w)
    as [[rc e'] w'] eqn:Hrun. cbn [fst snd].
  destruct (active_outcome _ _ _ _ _ _ Hrun)
    as [(Hc & -> & ->)|[(Hc & -> & Hrc)|(Hc & h & [[Hrc ->]|[-> ->]])]].
  - apply connected_true in Hc. split; [tauto|congruence].
  - apply connected_false in Hc. split; [|reflexivity].
    split; [|tauto]. intros H0. rewrite H0 in Hrc.
    destruct Hrc as [Hrc|[Hrc|Hrc]]; congruence.
  - apply connected_false in Hc. cbn. split; [|reflexivity].
    split; [|tauto]. congruence.
  - cbn. split; [tauto|congruence].
Qed.

(** The exits of [setupConnectionsByPassive]; [e0] is the endpoint after
    the disconnection that precedes the checks. *)
Lemma passive_outcome (ctx : EfaContext) (e e' : EfaEndPoint)
    (peer_desc local_desc d : HandShakeDesc) (w w' : World) (rc : Z) :
  EfaEndPoint.setupConnectionsByPassive ctx e peer_desc local_desc w
    = ((rc, e', d), w') →
  let e0 := if EfaEndPoint.connected e
            then EfaEndPoint.disconnectUnlocked e else e in
  (rc = ERR_REJECT_HANDSHAKE ∧ e' = e0 ∧ w' = w
   ∧ d = EfaEndPoint.set_reply_msg "" local_desc)
  ∨ (∃ h, rc ≠ 0 ∧ e' = set_peer_fi_addr_ h e0
          ∧ d = EfaEndPoint.set_reply_msg "" local_desc)
  ∨ (∃ h, rc = 0 ∧ e' = set_status_ CONNECTED (set_peer_fi_addr_ h e0)
          ∧ d = {| local_nic_path := nicPath ctx;
                   peer_nic_path := peer_nic_path_ e;
                   reply_msg := EfaEndPoint.getLocalAddr e |}).
Proof.
  intros Hrun e0. unfold EfaEndPoint.setupConnectionsByPassive in Hrun.
  fold e0 in Hrun.
  assert (peer_nic_path_ e0 = peer_nic_path_ e) as Hpath
    by (subst e0; destruct (EfaEndPoint.connected e); reflexivity).
  assert (EfaEndPoint.getLocalAddr e0 = EfaEndPoint.getLocalAddr e) as Haddr
    by (subst e0; destruct (EfaEndPoint.connected e); reflexivity).
  clearbody e0.
  destruct (_ || _).
  { left. injection Hrun as <- <- <- <-. repeat split. }
  case_bool_decide.
  { left. injection Hrun as <- <- <- <-. repeat split. }
  right. unfold EfaEndPoint.insertPeerAddr in Hrun. run.
  destruct (provider (env w) _) as [r e1].
  destruct (ret r =? 1); cbn in Hrun.
  - right. injection Hrun as <- <- <- _. eexists. repeat split.
    unfold EfaEndPoint.getLocalAddr in *. congruence.
  - destruct (ERR_ENDPOINT =? 0) eqn:He; cbn in Hrun.
    + right. injection Hrun as <- <- <- _. eexists. repeat split.
      unfold EfaEndPoint.getLocalAddr in *. congruence.
    + left. injection Hrun as <- <- <- _. eexists.
      split; [apply Z.eqb_neq; exact He|]. split; reflexivity.
Qed.

(** X16: with ERR_REJECT_HANDSHAKE being an error code (not 0),
    [setupConnectionsByPassive] returns 0 exactly when the endpoint is
    CONNECTED afterwards; a call that returns an error answers with an
    empty payload and leaves the path members of the reply descriptor as
    they were; in every case the provider endpoint object, the local
    address, the counters and the peer path of the endpoint are
    untouched. *)
Theorem setupConnectionsByPassive_zero_iff_connected
    (ctx : EfaContext) (e e' : EfaEndPoint)
    (peer_desc local_desc d : HandShakeDesc) (w w' : World) (rc : Z) :
  ERR_REJECT_HANDSHAKE ≠ 0 →
  EfaEndPoint.setupConnectionsByPassive ctx e peer_desc local_desc w
    = ((rc, e', d), w') →
  (rc = 0 ↔ status_ e' = CONNECTED)
  ∧ (rc ≠ 0 →
     reply_msg d = ""
     ∧ local_nic_path d = local_nic_path local_desc
     ∧ peer_nic_path d = peer_nic_path local_desc)
  ∧ same_resources e e'.
Proof.
  intros Hrh Hrun.
  assert (∀ x : EfaEndPoint,
            same_resources e
              (if EfaEndPoint.connected e
               then EfaEndPoint.disconnectUnlocked e else e)) as Hres
    by (intros _; destruct (EfaEndPoint.connected e); repeat split).
  assert (status_ (if EfaEndPoint.connected e
                   then EfaEndPoint.disconnectUnlocked e else e)
          ≠ CONNECTED) as Hnc.
  { destruct (EfaEndPoint.connected e) eqn:Hc; [discriminate|].
    apply connected_false. exact Hc. }
  specialize (Hres e).
  destruct (passive_outcome _ _ _ _ _ _ _ _ _ Hrun)
    as [(-> & -> & _ & ->)|[(h & Hrc & -> & ->)|(h & -> & -> & ->)]].
  - split; [split; intros; congruence|]. split; [repeat split|exact Hres].
  - split; [split; intros; [congruence|cbn in *; congruence]|].
    split; [repeat split|]. exact Hres.
  - split; [split; reflexivity|]. split; [congruence|exact Hres].
Qed.

(** [setupConnectionsByPassive] on a request that is accepted. *)
Lemma passive_accept_run
    (ctx : EfaContext) (e : EfaEndPoint) (peer_desc local_desc : HandShakeDesc)
    (w : World) (r : Reply) (e1 : W) :
  peer_nic_path peer_desc = nicPath ctx →
  local_nic_path peer_desc = peer_nic_path_ e →
  reply_msg peer_desc ≠ "" →
  provider (env w)
    (fi_av_insert (av_ ctx) (Hex.hex_to_bytes (reply_msg peer_desc)))
    = (r, e1) →
  ret r = 1 →
  ∃ e',
    EfaEndPoint.setupConnectionsByPassive ctx e peer_desc local_desc w
    = ((0, e',
        {| local_nic_path := nicPath ctx;
           peer_nic_path := peer_nic_path_ e;
           reply_msg := Hex.hex_of_bytes (local_addr_ e) |}),
       {| env := e1;
          trace := trace w
                   ++ [fi_av_insert (av_ ctx)
                         (Hex.hex_to_bytes (reply_msg peer_desc))] |})
    ∧ status_ e' = CONNECTED
    ∧ peer_fi_addr_ e' = Z.of_N (out r)
    ∧ same_resources e e'.
Proof.
  intros Hpeer Hlocal Hne Hp Hr.
  unfold EfaEndPoint.setupConnectionsByPassive.
  set (e0 := if EfaEndPoint.connected e
             then EfaEndPoint.disconnectUnlocked e else e).
  assert (peer_nic_path_ e0 = peer_nic_path_ e) as Hpath
    by (subst e0; destruct (EfaEndPoint.connected e); reflexivity).
  assert (local_addr_ e0 = local_addr_ e) as Haddr
    by (subst e0; destruct (EfaEndPoint.connected e); reflexivity).
  assert (same_resources e e0) as Hres
    by (subst e0; destruct (EfaEndPoint.connected e); repeat split).
  clearbody e0.
  rewrite Hpath.
  rewrite (bool_decide_eq_false_2 (peer_nic_path peer_desc ≠ nicPath ctx))
    by (intros Hc; apply Hc; exact Hpeer).
  rewrite (bool_decide_eq_false_2
             (local_nic_path peer_desc ≠ peer_nic_path_ e))
    by (intros Hc; apply Hc; exact Hlocal).
  rewrite bool_decide_eq_false_2 by exact Hne. cbn [orb].
  unfold mbind, M_bind. rewrite (insertPeerAddr_run _ _ _ _ _ _ Hp).
  rewrite Hr. cbn. unfold EfaEndPoint.getLocalAddr. rewrite Haddr, Hpath.
  eexists. split; [reflexivity|].
  cbn. split; [reflexivity|]. split; [reflexivity|].
  destruct Hres as (? & ? & ? & ? & ? & ? & ? & ?). repeat split; assumption.
Qed.

(** X17: a request whose paths match, with an address that is not
    empty and that the address vector accepts, is answered with success:
    the endpoint is CONNECTED with the handle the provider gave, whatever
    its state was before (a connected endpoint is re-established), the
    address handed to the provider is the decoded payload of the request,
    and the reply names this side's path, the peer's path and this side's
    address in hexadecimal. *)
Theorem setupConnectionsByPassive_accepts
    (ctx : EfaContext) (e : EfaEndPoint) (peer_desc local_desc : HandShakeDesc)
    (w : World) (r : Reply) (e1 : W) :
  peer_nic_path peer_desc = nicPath ctx →
  local_nic_path peer_desc = peer_nic_path_ e →
  reply_msg peer_desc ≠ "" →
  provider (env w)
    (fi_av_insert (av_ ctx) (Hex.hex_to_bytes (reply_msg peer_desc)))
    = (r, e1) →
  ret r = 1 →
  ∃ e',
    EfaEndPoint.setupConnectionsByPassive ctx e peer_desc local_desc w
    = ((0, e',
        {| local_nic_path := nicPath ctx;
           peer_nic_path := peer_nic_path_ e;
           reply_msg := Hex.hex_of_bytes (local_addr_ e) |}),
       {| env := e1;
          trace := trace w
                   ++ [fi_av_insert (av_ ctx)
                         (Hex.hex_to_bytes (reply_msg peer_desc))] |})
    ∧ status_ e' = CONNECTED
    ∧ peer_fi_addr_ e' = Z.of_N (out r)
    ∧ same_resources e e'.
Proof. apply passive_accept_run. Qed.


Lemma hex_of_bytes_nonempty (l : list byte) :
  l ≠ [] → Hex.hex_of_bytes l ≠ "".
Proof.
  destruct l as [|b l]; [congruence|]. intros _.
  rewrite hex_of_bytes_cons.
  destruct (hex_of_byte_shape b) as (c1 & c2 & -> & _). discriminate.
Qed.

(** [setupConnectionsByActive] when the handshake is answered with an
    address that the address vector accepts. *)
Lemma active_handshake_run (ctx : EfaContext) (e : EfaEndPoint) (w : World)
    (rH rA : Reply) (e1 e2 : W) :
  EfaEndPoint.connected e = false →
  nicPath ctx ≠ peer_nic_path_ e →
  getServerNameFromNicPath (peer_nic_path_ e) ≠ "" →
  getNicNameFromNicPath (peer_nic_path_ e) ≠ "" →
  let request :=
    sendHandshake (getServerNameFromNicPath (peer_nic_path_ e))
      {| local_nic_path := nicPath ctx;
         peer_nic_path := peer_nic_path_ e;
         reply_msg := EfaEndPoint.getLocalAddr e |} in
  let insertion :=
    fi_av_insert (av_ ctx) (Hex.hex_to_bytes (reply_msg (out_desc rH))) in
  provider (env w) request = (rH, e1) →
  ret rH = 0 →
  reply_msg (out_desc rH) ≠ "" →
  provider e1 insertion = (rA, e2) →
  ret rA = 1 →
  EfaEndPoint.setupConnectionsByActive ctx e w
  = ((0, set_status_ CONNECTED (set_peer_fi_addr_ (Z.of_N (out rA)) e)),
     {| env := e2; trace := trace w ++ [request; insertion] |}).
Proof.
  intros Hc Hloop Hsrv Hnic request insertion Hp Hr Hne Hp2 Hr2.
  unfold EfaEndPoint.setupConnectionsByActive. rewrite Hc.
  rewrite bool_decide_eq_false_2 by exact Hloop.
  rewrite (bool_decide_eq_false_2 _ Hsrv), (bool_decide_eq_false_2 _ Hnic).
  cbn [orb].
  unfold mbind at 1, M_bind at 1, call at 1.
  fold request. rewrite Hp, Hr. cbn [negb Z.eqb].
  rewrite bool_decide_eq_false_2 by exact Hne.
  unfold mbind, M_bind.
  erewrite insertPeerAddr_run by exact Hp2.
  rewrite Hr2. cbn. rewrite <- app_assoc. reflexivity.
Qed.

(** X18: the two halves of the handshake fit together.  Endpoint A
    (not connected) names B's path as its peer and endpoint B names A's;
    both have an address.  The request that A's active side builds is
    accepted by B's passive side, whose answer carries B's address; fed
    back to A as the transport's reply it connects A.  Provided the two
    address-vector insertions succeed, both calls return 0, both
    endpoints are CONNECTED, B has inserted exactly A's address bytes and
    A exactly B's. *)
Theorem handshake_connects_both_sides
    (ctxA ctxB : EfaContext) (eA eB : EfaEndPoint) (local_desc : HandShakeDesc)
    (wA wB : World) (rB rH rA : Reply) (envB envA1 envA2 : W) :
  EfaEndPoint.connected eA = false →
  nicPath ctxA ≠ nicPath ctxB →
  peer_nic_path_ eA = nicPath ctxB →
  peer_nic_path_ eB = nicPath ctxA →
  local_addr_ eA ≠ [] →
  local_addr_ eB ≠ [] →
  getServerNameFromNicPath (nicPath ctxB) ≠ "" →
  getNicNameFromNicPath (nicPath ctxB) ≠ "" →
  let request :=
    {| local_nic_path := nicPath ctxA; peer_nic_path := nicPath ctxB;
       reply_msg := EfaEndPoint.getLocalAddr eA |} in
  let answer :=
    {| local_nic_path := nicPath ctxB; peer_nic_path := nicPath ctxA;
       reply_msg := EfaEndPoint.getLocalAddr eB |} in
  let sent := sendHandshake (getServerNameFromNicPath (nicPath ctxB)) request in
  provider (env wB) (fi_av_insert (av_ ctxB) (local_addr_ eA)) = (rB, envB) →
  ret rB = 1 →
  provider (env wA) sent = (rH, envA1) →
  ret rH = 0 →
  out_desc rH = answer →
  provider envA1 (fi_av_insert (av_ ctxA) (local_addr_ eB)) = (rA, envA2) →
  ret rA = 1 →
  ∃ eB' wB' eA' wA',
    EfaEndPoint.setupConnectionsByPassive ctxB eB request local_desc wB
      = ((0, eB', answer), wB')
    ∧ EfaEndPoint.setupConnectionsByActive ctxA eA wA = ((0, eA'), wA')
    ∧ status_ eB' = CONNECTED ∧ status_ eA' = CONNECTED
    ∧ trace wB' = trace wB ++ [fi_av_insert (av_ ctxB) (local_addr_ eA)]
    ∧ trace wA'
      = trace wA ++ [sent; fi_av_insert (av_ ctxA) (local_addr_ eB)].
Proof.
  intros HcA Hloop HpA HpB HaA HaB Hsrv Hnic request answer sent
    HinsB HrB Hsend HrH Hans HinsA HrA.
  assert (Hex.hex_to_bytes (reply_msg request) = local_addr_ eA) as HdecA
    by apply hex_roundtrip.
  assert (Hex.hex_to_bytes (reply_msg answer) = local_addr_ eB) as HdecB
    by apply hex_roundtrip.
  destruct (passive_accept_run ctxB eB request local_desc wB rB envB)
    as (eB' & HrunB & HstB & _); try reflexivity.
  { symmetry. exact HpB. }
  { apply hex_of_bytes_nonempty. exact HaA. }
  { rewrite HdecA. exact HinsB. }
  { exact HrB. }
  rewrite HdecA in HrunB. rewrite HpB in HrunB.
  pose proof (active_handshake_run ctxA eA wA rH rA envA1 envA2 HcA) as HrunA.
  rewrite HpA in HrunA. cbv zeta in HrunA. rewrite Hans, HdecB in HrunA.
  specialize (HrunA Hloop Hsrv Hnic Hsend HrH
                (hex_of_bytes_nonempty _ HaB) HinsA HrA).
  eexists _, _, _, _. split; [exact HrunB|]. split; [exact HrunA|].
  repeat split. exact HstB.
Qed.

(** X19: [doSetupConnection] inserts the given address without looking
    at the state of the endpoint or at any path.  When the provider
    reports one inserted address the call returns 0, the endpoint is
    CONNECTED and the reply message is left alone; otherwise (ERR_ENDPOINT
    being an error code, not 0) it returns ERR_ENDPOINT, the state is as
    before and the failure text is stored, provided a reply string was
    passed. *)
Theorem doSetupConnection_outcome
    (ctx : EfaContext) (e : EfaEndPoint) (peer_addr : string)
    (reply : option string) (w : World) (r : Reply) (e1 : W) :
  ERR_ENDPOINT ≠ 0 →
  provider (env w) (fi_av_insert (av_ ctx) (Hex.hex_to_bytes peer_addr))
    = (r, e1) →
  let w1 := {| env := e1;
               trace := trace w
                        ++ [fi_av_insert (av_ ctx)
                              (Hex.hex_to_bytes peer_addr)] |} in
  let e1' := set_peer_fi_addr_ (Z.of_N (out r)) e in
  (ret r = 1 →
   EfaEndPoint.doSetupConnection ctx e peer_addr reply w
   = ((0, set_status_ CONNECTED e1', reply), w1))
  ∧ (ret r ≠ 1 →
     EfaEndPoint.doSetupConnection ctx e peer_addr reply w
     = ((ERR_ENDPOINT, e1',
         match reply with
         | Some _ => Some "Failed to insert peer address into AV"
         | None => None
         end), w1)
     ∧ status_ e1' = status_ e).
Proof.
  intros Hne Hp w1 e1'. unfold EfaEndPoint.doSetupConnection.
  unfold mbind, M_bind. rewrite (insertPeerAddr_run _ _ _ _ _ _ Hp).
  split.
  - intros ->. reflexivity.
  - intros Hr. apply Z.eqb_neq in Hr, Hne. rewrite Hr, Hne.
    split; reflexivity.
Qed.

(** ** The submission loop, continued *)

Lemma post_outcomes_trace (ep : handle) (peer : Z) (heap : SliceHeap)
    (l : list N) :
  ∀ (w w' : World) (os : list (N * Outcome)),
    Forall (λ p, is_Some (heap !! p)) l →
    post_outcomes ep peer heap l w = (os, w') →
    trace w' = trace w ++ write_calls ep peer heap l.
Proof.
  induction l as [|p l IH]; intros w w' os Hal Hos.
  - injection Hos as _ <-. rewrite app_nil_r. reflexivity.
  - apply Forall_cons in Hal as [[s Hs] Hal].
    cbn [post_outcomes] in Hos. rewrite Hs in Hos.
    unfold call in Hos.
    destruct (provider (env w) _) as [r e1].
    destruct (post_outcomes ep peer heap l _) as [os' w2] eqn:Hos'.
    injection Hos as _ <-.
    rewrite (IH _ _ _ Hal Hos'). cbn [trace].
    unfold write_calls. cbn [omap list_omap]. rewrite Hs. cbn.
    rewrite <- app_assoc. reflexivity.
Qed.

(** X20: on a connected endpoint the calls of [submitPostSend] are one
    [fi_write] per slice of the input list, in the order of the list,
    each with the source address, length, remote address and remote key
    of its slice, on the endpoint's provider object and towards its peer
    handle; nothing else is called. *)
Theorem submitPostSend_posts_each_slice_once
    (ctx : EfaContext) (e : EfaEndPoint)
    (slice_list failed_slice_list : list N) (heap : SliceHeap) (w : World) :
  EfaEndPoint.connected e = true →
  Forall (λ p, is_Some (heap !! p)) slice_list →
  ∃ e' rest failed' heap' w',
    EfaEndPoint.submitPostSend ctx e slice_list failed_slice_list heap w
    = Some (0, (e', rest, failed', heap', w'))
    ∧ trace w'
      = trace w ++ write_calls (ep_ e) (peer_fi_addr_ e) heap slice_list
    ∧ List.length (write_calls (ep_ e) (peer_fi_addr_ e) heap slice_list)
      = List.length slice_list.
Proof.
  intros Hc Hal.
  destruct (post_outcomes (ep_ e) (peer_fi_addr_ e) heap slice_list w)
    as [os w'] eqn:Hos.
  destruct (post_loop_outcomes slice_list [] e failed_slice_list heap w w' os
              Hal Hos) as [_ Hrun].
  unfold EfaEndPoint.submitPostSend. rewrite Hc. cbn [negb].
  cbn [app List.length] in Hrun. rewrite Hrun. cbn.
  eexists _, _, _, _, _. split; [reflexivity|].
  split; [exact (post_outcomes_trace _ _ _ _ _ _ _ Hal Hos)|].
  clear -Hal. induction Hal as [|p l [s Hs] _ IH]; [reflexivity|].
  unfold write_calls in *. cbn [omap list_omap]. rewrite Hs. cbn.
  rewrite IH. reflexivity.
Qed.

Lemma outcomes_partition (os : list (N * Outcome)) :
  os.*1 ≡ₚ slices_with QueueFull os ++ slices_with HardError os
           ++ slices_with Posted os.
Proof.
  induction os as [|[p o] os IH]; [reflexivity|].
  rewrite !slices_with_cons. cbn [fmap list_fmap fst].
  destruct o.
  - rewrite (decide_False (P := Posted = QueueFull)) by discriminate.
    rewrite (decide_False (P := Posted = HardError)) by discriminate.
    rewrite (decide_True (P := Posted = Posted)) by reflexivity.
    rewrite IH. rewrite !app_assoc. apply Permutation_cons_app.
    reflexivity.
  - rewrite (decide_True (P := QueueFull = QueueFull)) by reflexivity.
    rewrite (decide_False (P := QueueFull = HardError)) by discriminate.
    rewrite (decide_False (P := QueueFull = Posted)) by discriminate.
    rewrite IH. reflexivity.
  - rewrite (decide_False (P := HardError = QueueFull)) by discriminate.
    rewrite (decide_True (P := HardError = HardError)) by reflexivity.
    rewrite (decide_False (P := HardError = Posted)) by discriminate.
    rewrite IH. apply Permutation_cons_app. reflexivity.
Qed.

Lemma active_keeps_wr_depth (ctx : EfaContext) (e e' : EfaEndPoint)
    (w w' : World) (rc : Z) :
  EfaEndPoint.setupConnectionsByActive ctx e w = ((rc, e'), w') →
  wr_depth_ e' = wr_depth_ e ∧ ep_ e' = ep_ e.
Proof.
  intros Hrun.
  destruct (active_outcome _ _ _ _ _ _ Hrun)
    as [(_ & _ & ->)|[(_ & -> & _)|(_ & h & [[_ ->]|[_ ->]])]];
    split; reflexivity.
Qed.

(** X21: [submitPostSend] neither loses nor duplicates a slice, whether
    the endpoint was connected or had to be connected first: the slices
    left in the input list, the slices appended to the failed list and
    the slices posted are together a rearrangement of the input list; the
    failed list only grows at its end; the counter grows by the number of
    posted slices, and every posted slice is marked successful. *)
Theorem submitPostSend_conserves_slices
    (ctx : EfaContext) (e e' : EfaEndPoint)
    (slice_list failed_slice_list rest failed' : list N)
    (heap heap' : SliceHeap) (w w' : World) (rc : Z) :
  Forall (λ p, is_Some (heap !! p)) slice_list →
  EfaEndPoint.submitPostSend ctx e slice_list failed_slice_list heap w
    = Some (rc, (e', rest, failed', heap', w')) →
  ∃ newly_failed posted,
    failed' = failed_slice_list ++ newly_failed
    ∧ slice_list ≡ₚ rest ++ newly_failed ++ posted
    ∧ wr_depth_ e' = wr_depth_ e + Z.of_nat (List.length posted)
    ∧ ∀ p, p ∈ posted → status <$> heap' !! p = Some SUCCESS.
Proof.
  intros Hal Hrun.
  assert (∀ e1 w1,
            wr_depth_ e1 = wr_depth_ e →
            (r ← EfaEndPoint.post_loop e1 slice_list 0 failed_slice_list heap w1;
             Some (0, r)) = Some (rc, (e', rest, failed', heap', w')) →
            ∃ newly_failed posted,
              failed' = failed_slice_list ++ newly_failed
              ∧ slice_list ≡ₚ rest ++ newly_failed ++ posted
              ∧ wr_depth_ e' = wr_depth_ e + Z.of_nat (List.length posted)
              ∧ ∀ p, p ∈ posted → status <$> heap' !! p = Some SUCCESS)
    as Hloop.
  { intros e1 w1 Hwr Hl.
    destruct (post_outcomes (ep_ e1) (peer_fi_addr_ e1) heap slice_list w1)
      as [os w2] eqn:Hos.
    destruct (post_loop_outcomes slice_list [] e1 failed_slice_list heap w1 w2
                os Hal Hos) as [Hfst Hl'].
    cbn [app List.length] in Hl'. rewrite Hl' in Hl. cbn in Hl.
    injection Hl as _ <- <- <- <- _.
    exists (slices_with HardError os), (slices_with Posted os).
    split; [reflexivity|]. split; [|split].
    - rewrite <- Hfst. apply outcomes_partition.
    - cbn. rewrite Hwr. reflexivity.
    - intros p Hp. rewrite mark_all_lookup, decide_True by exact Hp.
      apply slices_with_elem in Hp. rewrite Hfst in Hp.
      rewrite Forall_forall in Hal. destruct (Hal p Hp) as [s ->].
      reflexivity. }
  unfold EfaEndPoint.submitPostSend in Hrun.
  destruct (EfaEndPoint.connected e); cbn [negb] in Hrun.
  - eapply Hloop; [reflexivity|exact Hrun].
  - destruct (EfaEndPoint.setupConnectionsByActive ctx e w)
      as [[rc1 e1] w1] eqn:Hs.
    destruct (active_keeps_wr_depth _ _ _ _ _ _ Hs) as [Hwr _].
    destruct (rc1 =? 0); cbn [negb] in Hrun.
    + eapply Hloop; [exact Hwr|exact Hrun].
    + injection Hrun as _ <- <- <- _ _.
      exists slice_list, []. split; [reflexivity|].
      split; [rewrite app_nil_r; reflexivity|].
      split; [cbn; lia|]. intros p Hp. inversion Hp.
Qed.

(** X22: an empty batch is a connection attempt and nothing else: on a
    connected endpoint [submitPostSend] of the empty list returns 0 and
    changes nothing; on an endpoint that is not connected it runs the
    active establishment, returns what that returns, and leaves both
    lists and the slices as they are. *)
Theorem submitPostSend_empty_batch
    (ctx : EfaContext) (e : EfaEndPoint) (failed_slice_list : list N)
    (heap : SliceHeap) (w : World) :
  (EfaEndPoint.connected e = true →
   EfaEndPoint.submitPostSend ctx e [] failed_slice_list heap w
   = Some (0, (e, [], failed_slice_list, heap, w)))
  ∧ (EfaEndPoint.connected e = false →
     ∀ rc e' w',
       EfaEndPoint.setupConnectionsByActive ctx e w = ((rc, e'), w') →
       EfaEndPoint.submitPostSend ctx e [] failed_slice_list heap w
       = Some (rc, (e', [], failed_slice_list, heap, w'))).
Proof.
  split.
  - intros Hc. unfold EfaEndPoint.submitPostSend. rewrite Hc. cbn [negb].
    rewrite post_loop_unfold. reflexivity.
  - intros Hc rc e' w' Hs.
    unfold EfaEndPoint.submitPostSend. rewrite Hc, Hs. cbn [negb].
    destruct (rc =? 0) eqn:Hrc; cbn [negb].
    + rewrite post_loop_unfold. apply Z.eqb_eq in Hrc. subst rc. reflexivity.
    + rewrite app_nil_r. reflexivity.
Qed.

(** ** Construction of the context, continued *)

(** The completion-queue loop writes [cq_list_] only. *)
Lemma open_cqs_frame (n : nat) :
  ∀ (i : nat) (max_cqe : Z) (ctx : EfaContext) (w : World),
    let ctx' := (EfaContext.open_cqs n i max_cqe ctx w).1.2 in
    endpoint_store_ ctx' = endpoint_store_ ctx
    ∧ mr_map_ ctx' = mr_map_ ctx
    ∧ domain_ ctx' = domain_ ctx.
Proof.
  induction n as [|n IH]; intros i max_cqe ctx w; cbn.
  - repeat split.
  - run. destruct (provider (env w) _) as [r e1].
    destruct (ret r =? 0); cbn; [|repeat split].
    apply (IH (S i) max_cqe
             (set_cq_list_ (<[i := Some {| cq := out r |}]> (cq_list_ ctx)) ctx)).
Qed.



(** X24: [construct] starts by installing a new, empty endpoint store,
    and nothing later puts the old one back: whatever the outcome,
    success or any failure, the context afterwards has a store that holds
    no endpoint, so the endpoints registered before are not found any
    more. *)
Theorem context_construct_resets_endpoint_store
    (ctx : EfaContext) (num_cq_list num_comp_channels : nat)
    (port gid_index max_cqe max_endpoints : Z) (w : World) :
  let ctx' := (EfaContext.construct ctx num_cq_list num_comp_channels port
                 gid_index max_cqe max_endpoints w).1.2 in
  endpoint_store_ ctx' = Some ∅
  ∧ EfaContext.getTotalQPNumber ctx' = 0%nat
  ∧ ∀ peer_nic_path store,
      endpoint_store_ ctx' = Some store →
      EfaEndpointStore.get store peer_nic_path = None.
Proof.
  intros ctx'.
  assert (endpoint_store_ ctx' = Some ∅) as Hst.
  { subst ctx'. unfold EfaContext.construct. run.
    destruct (provider (env w) fi_allocinfo) as [r1 e1].
    destruct (is_null (out r1)); cbn; [reflexivity|].
    do 4 (step;
          match goal with |- context [ret ?r =? 0] => destruct (ret r =? 0) end;
          cbn; [|repeat step; reflexivity]).
    match goal with |- context [EfaContext.open_cqs ?n ?j ?m ?c ?v] =>
      destruct (open_cqs_frame n j m c v) as (Hs & _) end.
    exact Hs. }
  split; [exact Hst|]. split.
  - unfold EfaContext.getTotalQPNumber. rewrite Hst. reflexivity.
  - intros p store Hs. rewrite Hst in Hs. injection Hs as <-. reflexivity.
Qed.

(** ** The endpoint factory, continued *)

(** [EfaEndPoint.construct] never connects. *)
Lemma construct_new_not_connected (ctx : EfaContext) (c : handle)
    (max_wr : Z) (w : World) :
  let e' := (EfaEndPoint.construct ctx EfaEndPoint.new c max_wr w).1.2 in
  status_ e' ≠ CONNECTED ∧ peer_fi_addr_ e' = FI_ADDR_UNSPEC.
Proof.
  intros e'. subst e'.
  destruct (EfaEndPoint.construct ctx EfaEndPoint.new c max_wr w)
    as [[rc e'] w'] eqn:Hrun.
  assert (status_ EfaEndPoint.new = INITIALIZING) as Hst by reflexivity.
  construct_cases Hst Hrun; cbn; split; (discriminate || reflexivity).
Qed.

(** The exits of [EfaContext.endpoint] on a path that the store does not
    hold. *)
Lemma endpoint_miss (ctx ctx1 : EfaContext) (eps eps1 : EndPointHeap)
    (peer_nic_path : string) (w w1 : World) (res : EndPointRef)
    (store : gmap string EndPointRef) :
  endpoint_store_ ctx = Some store →
  EfaEndpointStore.get store peer_nic_path = None →
  EfaContext.endpoint ctx eps peer_nic_path w = ((res, ctx1, eps1), w1) →
  (res = None ∧ ctx1 = ctx ∧ eps1 = eps)
  ∨ (∃ e, res = Some (fresh (dom eps))
          ∧ ctx1 = set_endpoint_store_
                     (Some (<[peer_nic_path := Some (fresh (dom eps))]> store))
                     ctx
          ∧ eps1 = <[fresh (dom eps) := e]> eps
          ∧ peer_nic_path_ e = peer_nic_path
          ∧ status_ e ≠ CONNECTED
          ∧ peer_fi_addr_ e = FI_ADDR_UNSPEC).
Proof.
  intros Hst Hget Hrun. unfold EfaContext.endpoint in Hrun.
  rewrite Hst, Hget in Hrun.
  unfold mbind, M_bind in Hrun.
  set (first :=
         match cq_list_ ctx with
         | Some c :: _ =>
             EfaEndPoint.construct ctx EfaEndPoint.new (cq c) default_max_wr
         | _ => mret (0, EfaEndPoint.new)
         end) in Hrun.
  assert (status_ (first w).1.2 ≠ CONNECTED
          ∧ peer_fi_addr_ (first w).1.2 = FI_ADDR_UNSPEC) as Hnc.
  { subst first. destruct (cq_list_ ctx) as [|[q|] ?];
      try (split; [discriminate|reflexivity]).
    apply construct_new_not_connected. }
  destruct (first w) as [[rc e] w2]. cbn [fst snd] in Hnc.
  destruct Hnc as [Hnc Hfi].
  destruct (rc =? 0); cbn [negb] in Hrun.
  - right. injection Hrun as <- <- <- _.
    exists (EfaEndPoint.setPeerNicPath e peer_nic_path).
    assert (EfaEndPoint.connected e = false) as Hc
      by (apply connected_false; exact Hnc).
    unfold EfaEndPoint.setPeerNicPath. rewrite Hc. cbn.
    repeat split; assumption.
  - left. unfold EfaContext.destroy_endpoint in Hrun.
    destruct (negb (is_null (ep_ e))); run.
    + unfold EfaEndPoint.deconstruct in Hrun.
      destruct (negb (is_null (ep_ e))); run.
      * destruct (provider (env w2) _). injection Hrun as <- <- <- _.
        repeat split.
      * injection Hrun as <- <- <- _. repeat split.
    + injection Hrun as <- <- <- _. repeat split.
Qed.

(** X25: [endpoint] is a get-or-create: once it has returned an
    endpoint for a path, asking again for the same path returns the same
    endpoint and changes neither the context nor the endpoints nor the
    world: no second object is made and no call reaches the provider. *)
Theorem endpoint_second_lookup_returns_same
    (ctx ctx1 : EfaContext) (eps eps1 : EndPointHeap)
    (peer_nic_path : string) (w w1 : World) (l : positive) :
  EfaContext.endpoint ctx eps peer_nic_path w = ((Some l, ctx1, eps1), w1) →
  ∀ w2, EfaContext.endpoint ctx1 eps1 peer_nic_path w2
        = ((Some l, ctx1, eps1), w2).
Proof.
  intros Hrun w2.
  assert (∃ store1, endpoint_store_ ctx1 = Some store1
                    ∧ EfaEndpointStore.get store1 peer_nic_path = Some l)
    as (store1 & Hst1 & Hget1).
  { destruct (endpoint_store_ ctx) as [store|] eqn:Hst.
    2:{ unfold EfaContext.endpoint in Hrun. rewrite Hst in Hrun.
        discriminate Hrun. }
    destruct (EfaEndpointStore.get store peer_nic_path) as [l0|] eqn:Hget.
    - unfold EfaContext.endpoint in Hrun. rewrite Hst, Hget in Hrun.
      injection Hrun as <- <- _ _. eauto.
    - destruct (endpoint_miss _ _ _ _ _ _ _ _ _ Hst Hget Hrun)
        as [(Hn & _)|(e & Hl & -> & _)]; [discriminate|].
      injection Hl as ->. eexists. split; [reflexivity|].
      unfold EfaEndpointStore.get. rewrite lookup_insert_eq. reflexivity. }
  unfold EfaContext.endpoint. rewrite Hst1, Hget1. reflexivity.
Qed.

(** X26: when [endpoint] returns the empty pointer, because the context
    has no store or because the construction of the new endpoint failed,
    nothing was published: the context, its store included, and the
    endpoints are as before. *)
Theorem endpoint_null_result_publishes_nothing
    (ctx ctx1 : EfaContext) (eps eps1 : EndPointHeap)
    (peer_nic_path : string) (w w1 : World) :
  EfaContext.endpoint ctx eps peer_nic_path w = ((None, ctx1, eps1), w1) →
  ctx1 = ctx ∧ eps1 = eps.
Proof.
  intros Hrun.
  destruct (endpoint_store_ ctx) as [store|] eqn:Hst.
  2:{ unfold EfaContext.endpoint in Hrun. rewrite Hst in Hrun.
      injection Hrun as <- <- _. split; reflexivity. }
  destruct (EfaEndpointStore.get store peer_nic_path) as [l0|] eqn:Hget.
  - unfold EfaContext.endpoint in Hrun. rewrite Hst, Hget in Hrun.
    discriminate Hrun.
  - destruct (endpoint_miss _ _ _ _ _ _ _ _ _ Hst Hget Hrun)
      as [(_ & -> & ->)|(e & Hl & _)]; [split; reflexivity|discriminate].
Qed.

(** X27: an endpoint that [endpoint] creates for a path the store did
    not hold is placed at a location that held no endpoint, carries the
    requested peer path, is not connected and has no peer handle; the
    store maps the path to it and every other path to what it did
    before, and the endpoints that existed are untouched. *)
Theorem endpoint_created_is_registered_unconnected
    (ctx ctx1 : EfaContext) (eps eps1 : EndPointHeap)
    (peer_nic_path : string) (w w1 : World) (l : positive)
    (store : gmap string EndPointRef) :
  endpoint_store_ ctx = Some store →
  EfaEndpointStore.get store peer_nic_path = None →
  EfaContext.endpoint ctx eps peer_nic_path w = ((Some l, ctx1, eps1), w1) →
  eps !! l = None
  ∧ (∃ e, eps1 !! l = Some e
          ∧ peer_nic_path_ e = peer_nic_path
          ∧ EfaEndPoint.connected e = false
          ∧ peer_fi_addr_ e = FI_ADDR_UNSPEC)
  ∧ (∀ l', l' ≠ l → eps1 !! l' = eps !! l')
  ∧ ∃ store1,
      endpoint_store_ ctx1 = Some store1
      ∧ EfaEndpointStore.get store1 peer_nic_path = Some l
      ∧ ∀ other, other ≠ peer_nic_path →
          EfaEndpointStore.get store1 other = EfaEndpointStore.get store other.
Proof.
  intros Hst Hget Hrun.
  destruct (endpoint_miss _ _ _ _ _ _ _ _ _ Hst Hget Hrun)
    as [(Hn & _)|(e & Hl & -> & -> & Hp & Hnc & Hfi)]; [discriminate|].
  injection Hl as ->.
  split; [apply not_elem_of_dom, is_fresh|]. split; [|split].
  - exists e. rewrite lookup_insert_eq.
    repeat split; try assumption. apply connected_false. exact Hnc.
  - intros l' Hne. rewrite lookup_insert_ne by congruence. reflexivity.
  - eexists. split; [reflexivity|]. unfold EfaEndpointStore.get. split.
    + rewrite lookup_insert_eq. reflexivity.
    + intros other Hne. rewrite lookup_insert_ne by congruence. reflexivity.
Qed.

(** ** Teardown *)

Lemma disconnect_idemp (e : EfaEndPoint) :
  EfaEndPoint.disconnect (EfaEndPoint.disconnect e) = EfaEndPoint.disconnect e.
Proof. reflexivity. Qed.

Lemma disconnect_fold_lookup (entries : list (string * EndPointRef))
    (eps : EndPointHeap) (l : positive) :
  foldr (λ entry h,
           match entry.2 with
           | Some l0 => alter EfaEndPoint.disconnect l0 h
           | None => h
           end) eps entries !! l
  = if decide (Some l ∈ entries.*2)
    then EfaEndPoint.disconnect <$> eps !! l else eps !! l.
Proof.
  induction entries as [|[k r] entries IH]; cbn [foldr fmap list_fmap snd].
  - rewrite decide_False by apply not_elem_of_nil. reflexivity.
  - destruct r as [l0|].
    + rewrite lookup_alter. destruct (decide (l0 = l)) as [->|Hne].
      * rewrite IH. rewrite (decide_True (P := Some l ∈ Some l :: _))
          by left.
        destruct (decide (Some l ∈ entries.*2)); [|reflexivity].
        destruct (eps !! l); reflexivity.
      * rewrite IH.
        destruct (decide (Some l ∈ entries.*2)) as [Hin|Hin].
        -- rewrite decide_True by (right; exact Hin). reflexivity.
        -- rewrite decide_False; [reflexivity|].
           intros Hc. apply elem_of_cons in Hc as [Hc|Hc];
             [congruence|contradiction].
    + rewrite IH.
      destruct (decide (Some l ∈ entries.*2)) as [Hin|Hin].
      * rewrite decide_True by (right; exact Hin). reflexivity.
      * rewrite decide_False; [reflexivity|].
        intros Hc. apply elem_of_cons in Hc as [Hc|Hc];
          [discriminate|contradiction].
Qed.

Lemma store_refers (store : gmap string EndPointRef) (l : positive) :
  Some l ∈ (map_to_list store).*2 ↔ ∃ k, store !! k = Some (Some l).
Proof.
  rewrite list_elem_of_fmap. split.
  - intros [[k r] [Hr Hin]]. cbn in Hr. subst r.
    apply elem_of_map_to_list in Hin. eauto.
  - intros [k Hk]. exists (k, Some l). split; [reflexivity|].
    apply elem_of_map_to_list. exact Hk.
Qed.

(** X28: [disconnectAll] returns 0 and disconnects every endpoint that
    an entry of the store refers to: afterwards it is UNCONNECTED with
    an unspecified peer handle, while its provider endpoint object, its
    address, its counters and its peer path are untouched (nothing is
    closed); endpoints the store does not refer to are left as they are,
    and no endpoint appears or disappears. *)
Theorem disconnectAll_disconnects_referenced
    (store : gmap string EndPointRef) (eps : EndPointHeap) :
  let res := EfaEndpointStore.disconnectAll store eps in
  res.1 = 0
  ∧ (∀ k l e, store !! k = Some (Some l) → eps !! l = Some e →
       ∃ e', res.2 !! l = Some e'
             ∧ status_ e' = UNCONNECTED
             ∧ peer_fi_addr_ e' = FI_ADDR_UNSPEC
             ∧ same_resources e e')
  ∧ (∀ l, (∀ k, store !! k ≠ Some (Some l)) → res.2 !! l = eps !! l)
  ∧ dom res.2 = dom eps.
Proof.
  unfold EfaEndpointStore.disconnectAll. cbn [fst snd].
  split; [reflexivity|]. split; [|split].
  - intros k l e Hk He. rewrite disconnect_fold_lookup.
    rewrite decide_True by (apply store_refers; eauto).
    rewrite He. eexists. split; [reflexivity|]. repeat split.
  - intros l Hno. rewrite disconnect_fold_lookup.
    rewrite decide_False; [reflexivity|].
    rewrite store_refers. intros [k Hk]. exact (Hno k Hk).
  - apply set_eq. intros l. rewrite !elem_of_dom.
    rewrite disconnect_fold_lookup.
    destruct (decide _); [|reflexivity].
    rewrite fmap_is_Some. reflexivity.
Qed.

Lemma disconnectAll_idemp (store : gmap string EndPointRef)
    (eps : EndPointHeap) :
  (EfaEndpointStore.disconnectAll store
     (EfaEndpointStore.disconnectAll store eps).2).2
  = (EfaEndpointStore.disconnectAll store eps).2.
Proof.
  unfold EfaEndpointStore.disconnectAll. cbn [snd].
  apply map_eq. intros l. rewrite !disconnect_fold_lookup.
  destruct (decide _); [|reflexivity].
  destruct (eps !! l); reflexivity.
Qed.

Lemma close_mrs_run (entries : list (Z * EfaMemoryRegionMeta)) :
  ∀ w, trace (EfaContext.close_mrs entries w).2
       = trace w ++ mr_closes entries
       ∧ (mr_closes entries = [] → (EfaContext.close_mrs entries w).2 = w).
Proof.
  induction entries as [|x entries IH]; intros w; cbn.
  - rewrite app_nil_r. split; reflexivity.
  - unfold close_if. run. destruct (is_null (mr x.2)); cbn.
    + apply IH.
    + destruct (provider (env w) _) as [r e1].
      destruct (IH {| env := e1; trace := trace w ++ [fi_close (mr x.2)] |})
        as [Htr _].
      destruct (EfaContext.close_mrs entries _) as [[] w2]. cbn in *.
      rewrite Htr, <- app_assoc. split; [reflexivity|discriminate].
Qed.

Lemma close_cqs_run (cqs : list (option EfaCq)) :
  ∀ w, trace (EfaContext.close_cqs cqs w).2 = trace w ++ cq_closes cqs
       ∧ (cq_closes cqs = [] → (EfaContext.close_cqs cqs w).2 = w).
Proof.
  induction cqs as [|c cqs IH]; intros w; cbn.
  - rewrite app_nil_r. split; reflexivity.
  - unfold close_if. run. destruct c as [q|]; cbn; [|apply IH].
    destruct (is_null (cq q)); cbn; [apply IH|].
    destruct (provider (env w) _) as [r e1].
    destruct (IH {| env := e1; trace := trace w ++ [fi_close (cq q)] |})
      as [Htr _].
    destruct (EfaContext.close_cqs cqs _) as [[] w2]. cbn in *.
    rewrite Htr, <- app_assoc. split; [reflexivity|discriminate].
Qed.

Lemma maybe_release (h : handle) (c : Call) (ctx released : EfaContext)
    (w : World) :
  (if negb (is_null h)
   then _ ← call c; mret released
   else mret ctx) w
  = if is_null h then (ctx, w)
    else (released,
          {| env := (provider (env w) c).2; trace := trace w ++ [c] |}).
Proof.
  destruct (is_null h); run; [reflexivity|].
  destruct (provider (env w) c). reflexivity.
Qed.

Lemma is_null_true (h : handle) : is_null h = true → h = nullptr.
Proof. unfold is_null. apply N.eqb_eq. Qed.

(** [deconstruct], run: what it returns, what it calls, and that a
    teardown with nothing to release leaves the world alone. *)
Lemma deconstruct_run (ctx : EfaContext) (eps : EndPointHeap) (w : World) :
  ∃ w',
    EfaContext.deconstruct ctx eps w
    = ((0, torn_down ctx, (EfaContext.disconnectAllEndpoints ctx eps).2), w')
    ∧ trace w' = trace w ++ teardown_calls ctx
    ∧ (teardown_calls ctx = [] → w' = w).
Proof.
  unfold EfaContext.deconstruct, EfaContext.disconnectAllEndpoints.
  unfold teardown_calls.
  assert (match endpoint_store_ ctx with
          | Some store => (EfaEndpointStore.disconnectAll store eps).2
          | None => eps
          end
          = (match endpoint_store_ ctx with
             | Some store => EfaEndpointStore.disconnectAll store eps
             | None => (0, eps)
             end).2) as -> by (destruct (endpoint_store_ ctx); reflexivity).
  generalize (match endpoint_store_ ctx with
              | Some store => EfaEndpointStore.disconnectAll store eps
              | None => (0, eps)
              end).2.
  intros eps'.
  unfold mbind at 1, M_bind at 1.
  destruct (close_mrs_run (map_to_list (mr_map_ ctx)) w) as [Hmr Hmr0].
  destruct (EfaContext.close_mrs (map_to_list (mr_map_ ctx)) w) as [[] w1].
  cbn [snd] in Hmr, Hmr0.
  unfold mbind at 1, M_bind at 1. cbn [cq_list_ set_mr_map_].
  destruct (close_cqs_run (cq_list_ ctx) w1) as [Hcq Hcq0].
  destruct (EfaContext.close_cqs (cq_list_ ctx) w1) as [[] w2].
  cbn [snd] in Hcq, Hcq0.
  unfold close_if, free_if.
  unfold mbind at 1, M_bind at 1; rewrite maybe_release;
    cbn [av_ set_cq_list_ set_mr_map_];
    destruct (is_null (av_ ctx)) eqn:Hav; cbv beta iota;
    unfold mbind at 1, M_bind at 1; rewrite maybe_release;
    cbn [domain_ set_av_ set_cq_list_ set_mr_map_];
    destruct (is_null (domain_ ctx)) eqn:Hdo; cbv beta iota;
    unfold mbind at 1, M_bind at 1; rewrite maybe_release;
    cbn [fabric_ set_domain_ set_av_ set_cq_list_ set_mr_map_];
    destruct (is_null (fabric_ ctx)) eqn:Hfa; cbv beta iota;
    unfold mbind at 1, M_bind at 1; rewrite maybe_release;
    cbn [fi_info_ set_fabric_ set_domain_ set_av_ set_cq_list_ set_mr_map_];
    destruct (is_null (fi_info_ ctx)) eqn:Hfi; cbv beta iota;
    unfold mbind at 1, M_bind at 1; rewrite maybe_release;
    cbn [hints_ set_fi_info_ set_fabric_ set_domain_ set_av_ set_cq_list_
           set_mr_map_];
    destruct (is_null (hints_ ctx)) eqn:Hhi; cbv beta iota;
    eexists;
    (split;
     [unfold mret, M_ret; f_equal; f_equal; f_equal;
      repeat match goal with
             | Hn : is_null _ = true |- _ => apply is_null_true in Hn
             end;
      destruct ctx; cbn in *; subst; reflexivity
     |]);
    cbn [trace];
    (split;
     [rewrite Hcq, Hmr, <- ?app_assoc; cbn [app]; rewrite ?app_nil_r;
      reflexivity
     |]);
    intros Hnil;
    repeat match goal with
           | Hx : _ ++ _ = [] |- _ =>
               apply app_eq_nil in Hx as [? Hx]
           end;
    try discriminate;
    rewrite Hcq0, Hmr0 by assumption; reflexivity.
Qed.



(** X30: teardown is idempotent: a second [deconstruct], in the state
    and the world the first one left, returns 0 again, makes no call at
    all and changes neither the context nor the endpoints. *)
Theorem context_deconstruct_twice_is_noop
    (ctx : EfaContext) (eps : EndPointHeap) (w : World) :
  let res := EfaContext.deconstruct ctx eps w in
  EfaContext.deconstruct res.1.1.2 res.1.2 res.2
  = ((0, res.1.1.2, res.1.2), res.2).
Proof.
  intros res. subst res.
  destruct (deconstruct_run ctx eps w) as (w' & Hrun & _ & _).
  rewrite Hrun. cbn [fst snd].
  destruct (deconstruct_run (torn_down ctx)
              (EfaContext.disconnectAllEndpoints ctx eps).2 w')
    as (w'' & Hrun2 & _ & Hsame).
  rewrite Hrun2.
  assert (teardown_calls (torn_down ctx) = []) as Hnil.
  { unfold teardown_calls, torn_down. cbn.
    rewrite map_to_list_empty. reflexivity. }
  rewrite (Hsame Hnil). f_equal. f_equal.
  unfold EfaContext.disconnectAllEndpoints, torn_down. cbn.
  destruct (endpoint_store_ ctx); [|reflexivity].
  apply disconnectAll_idemp.
Qed.

End Further.

(** * Instances of the further properties *)

Lemma registerMemoryRegion_refused_witness :
  EfaContext.registerMemoryRegion (H := platform) ctxA 8192 512 0
    (world [fails (-12)])
  = ((@ERR_CONTEXT platform, ctxA),
     world_after [] [fi_mr_reg 4%N 8192 512 full_access]).
Proof.
  exact (registerMemoryRegion_refused_changes_nothing (H := platform) ctxA
           8192 512 0 (world [fails (-12)]) (fails (-12)) []
           ltac:(discriminate) eq_refl ltac:(discriminate)).
Defined.

Lemma registerMemoryRegion_then_rkey_witness :
  ∃ ctx' w',
    EfaContext.registerMemoryRegion (H := platform) ctxA 8192 512 0
      (world [ok 21; ok 99]) = ((0, ctx'), w')
    ∧ EfaContext.rkey (H := platform) ctx' 8192 (world []) = (99, world [])
    ∧ EfaContext.rkey (H := platform) ctx' 4096 (world []) = (0, world []).
Proof.
  destruct (registerMemoryRegion_then_rkey (H := platform) ctxA 8192 512 0
              (world [ok 21; ok 99]) (ok 21) (ok 99) [ok 99] []
              eq_refl eq_refl eq_refl)
    as (ctx' & w' & Hrun & Hkey & Hother).
  exists ctx', w'. split; [exact Hrun|]. split; [apply Hkey|].
  rewrite Hother by discriminate. reflexivity.
Defined.

Lemma registerMemoryRegion_then_unregister_witness :
  ∃ ctx' w',
    EfaContext.registerMemoryRegion (H := platform) ctxA 8192 512 0
      (world [ok 21; ok 99; ok 0]) = ((0, ctx'), w')
    ∧ EfaContext.unregisterMemoryRegion (H := platform) ctx' 8192 w'
      = ((0, ctxA),
         world_after []
           [fi_mr_reg 4%N 8192 512 full_access; fi_mr_key 21%N;
            fi_close 21%N]).
Proof.
  exact (registerMemoryRegion_then_unregister (H := platform) ctxA 8192 512 0
           (world [ok 21; ok 99; ok 0]) (ok 21) (ok 99) (ok 0)
           [ok 99; ok 0] [ok 0] []
           eq_refl eq_refl eq_refl ltac:(discriminate) eq_refl eq_refl
           eq_refl).
Defined.

Lemma registerMemoryRegion_again_witness :
  ∃ ctx' w' m,
    EfaContext.registerMemoryRegion (H := platform) ctx_registered 8192 512 0
      (world [ok 22; ok 100]) = ((0, ctx'), w')
    ∧ mr_map_ ctx' !! 8192 = Some m ∧ mr m = 22%N
    ∧ size (mr_map_ ctx') = 1%nat
    ∧ trace w' = [fi_mr_reg 4%N 8192 512 full_access; fi_mr_key 22%N].
Proof.
  destruct (registerMemoryRegion_again_drops_old_handle (H := platform)
              ctx_registered 8192 512 0 (world [ok 22; ok 100])
              {| mr_addr := 8192; mr_length := 512; mr := 21%N; key := 99 |}
              (ok 22) [ok 100] eq_refl eq_refl eq_refl)
    as (ctx' & w' & m & Hrun & Hm & Hmr & Hsize & Htr & _).
  exists ctx', w', m. repeat split; assumption.
Defined.

Lemma unregisterMemoryRegion_close_failure_witness :
  EfaContext.unregisterMemoryRegion (H := platform) ctx_registered 8192
    (world [fails (-5)])
  = ((@ERR_CONTEXT platform, ctx_registered),
     world_after [] [fi_close 21%N])
  ∧ EfaContext.rkey (H := platform) ctx_registered 8192 (world [])
    = (99, world []).
Proof.
  destruct (unregisterMemoryRegion_close_failure_keeps_entry (H := platform)
              ctx_registered 8192 (world [fails (-5)])
              {| mr_addr := 8192; mr_length := 512; mr := 21%N; key := 99 |}
              (fails (-5)) [] eq_refl ltac:(discriminate) eq_refl
              ltac:(discriminate)) as [Hrun Hkey].
  split; [exact Hrun|apply Hkey].
Defined.

Lemma endpoint_construct_success_witness :
  let res := EfaEndPoint.construct (H := platform) ctxA EfaEndPoint.new 6%N
               256 (world construct_script) in
  res.1.1 = 0
  ∧ status_ res.1.2 = UNCONNECTED
  ∧ local_addr_ res.1.2 = [xde; xad; xbe; xef]
  ∧ trace res.2 = construct_calls ctxA 6%N 9%N.
Proof.
  intros res.
  assert (EfaEndPoint.construct (H := platform) ctxA EfaEndPoint.new 6%N 256
            (world construct_script) = ((0, res.1.2), res.2)) as Hrun
    by (vm_compute; reflexivity).
  destruct (endpoint_construct_success (H := platform) ctxA EfaEndPoint.new
              _ _ _ _ _ eq_refl ltac:(discriminate) Hrun)
    as (Hst & _ & _ & _ & _ & Htr & _).
  split; [reflexivity|]. split; [exact Hst|]. split; [reflexivity|exact Htr].
Defined.

Lemma endpoint_construct_failure_witness :
  let res := EfaEndPoint.construct (H := platform) ctxA EfaEndPoint.new 6%N
               256 (world [ok 9; ok 0; fails (-22)]) in
  res.1.1 = @ERR_ENDPOINT platform
  ∧ status_ res.1.2 = INITIALIZING
  ∧ ep_ res.1.2 = nullptr
  ∧ ∃ mid, trace res.2
           = fi_endpoint 4%N 2%N :: mid ++ [fi_close 9%N].
Proof.
  intros res.
  assert (EfaEndPoint.construct (H := platform) ctxA EfaEndPoint.new 6%N 256
            (world [ok 9; ok 0; fails (-22)])
          = ((@ERR_ENDPOINT platform, res.1.2), res.2)) as Hrun
    by (vm_compute; reflexivity).
  destruct (endpoint_construct_failure_releases (H := platform) ctxA
              EfaEndPoint.new _ _ _ _ _ _
              eq_refl eq_refl Hrun ltac:(discriminate))
    as (Hst & Hep & mid & Htr & _).
  split; [reflexivity|]. split; [exact Hst|]. split; [exact Hep|].
  exists mid. exact Htr.
Defined.

Lemma endpoint_construct_only_once_witness :
  let res := EfaEndPoint.construct (H := platform) ctxA EfaEndPoint.new 6%N
               256 (world construct_script) in
  EfaEndPoint.construct (H := platform) ctxA res.1.2 6%N 256
    (world construct_script)
  = ((@ERR_ENDPOINT platform, res.1.2), world construct_script).
Proof.
  intros res.
  assert (EfaEndPoint.construct (H := platform) ctxA EfaEndPoint.new 6%N 256
            (world construct_script) = ((0, res.1.2), res.2)) as Hrun
    by (vm_compute; reflexivity).
  exact (endpoint_construct_only_once (H := platform) ctxA EfaEndPoint.new
           _ _ _ _ _ eq_refl ltac:(discriminate) Hrun ctxA 6%N 256
           (world construct_script)).
Defined.

Lemma setupConnectionsByActive_zero_iff_connected_witness :
  let refused := EfaEndPoint.setupConnectionsByActive (H := platform) ctxA
                   (endpoint_to "B@efa0" UNCONNECTED)
                   (world [replies 0 empty_desc]) in
  let accepted := EfaEndPoint.setupConnectionsByActive (H := platform) ctxA
                    (endpoint_to "B@efa0" UNCONNECTED)
                    (world [replies 0 answerBA; inserted 1 3]) in
  (refused.1.1 = @ERR_REJECT_HANDSHAKE platform
   ∧ status_ refused.1.2 = UNCONNECTED)
  ∧ (accepted.1.1 = 0 ∧ status_ accepted.1.2 = CONNECTED).
Proof.
  intros refused accepted. split.
  - destruct (setupConnectionsByActive_zero_iff_connected (H := platform) ctxA
                (endpoint_to "B@efa0" UNCONNECTED)
                (world [replies 0 empty_desc])
                ltac:(discriminate) ltac:(discriminate)) as [_ Hkeep].
    split; [reflexivity|]. apply Hkeep. discriminate.
  - destruct (setupConnectionsByActive_zero_iff_connected (H := platform) ctxA
                (endpoint_to "B@efa0" UNCONNECTED)
                (world [replies 0 answerBA; inserted 1 3])
                ltac:(discriminate) ltac:(discriminate)) as [Hiff _].
    split; [reflexivity|]. apply Hiff. reflexivity.
Defined.

Lemma setupConnectionsByPassive_zero_iff_connected_witness :
  let res := EfaEndPoint.setupConnectionsByPassive (H := platform) ctxA
               (endpoint_to "B@efa0" CONNECTED) answerBA requestAB
               (world [inserted 0 0]) in
  res.1.1.1 = @ERR_ENDPOINT platform
  ∧ status_ res.1.1.2 ≠ CONNECTED
  ∧ reply_msg res.1.2 = ""
  ∧ local_nic_path res.1.2 = "A@efa0"
  ∧ ep_ res.1.1.2 = 9%N.
Proof.
  intros res.
  assert (EfaEndPoint.setupConnectionsByPassive (H := platform) ctxA
            (endpoint_to "B@efa0" CONNECTED) answerBA requestAB
            (world [inserted 0 0])
          = ((@ERR_ENDPOINT platform, res.1.1.2, res.1.2), res.2)) as Hrun
    by (vm_compute; reflexivity).
  destruct (setupConnectionsByPassive_zero_iff_connected (H := platform) ctxA
              (endpoint_to "B@efa0" CONNECTED) _ answerBA requestAB _ _ _ _
              ltac:(discriminate) Hrun)
    as (Hiff & Hfail & Hres & _).
  destruct (Hfail ltac:(discriminate)) as (Hmsg & Hlocal & _).
  split; [reflexivity|]. split.
  - intros Hc. apply Hiff in Hc. discriminate Hc.
  - split; [exact Hmsg|]. split; [exact Hlocal|exact Hres].
Defined.

Lemma setupConnectionsByPassive_accepts_witness :
  ∃ e',
    EfaEndPoint.setupConnectionsByPassive (H := platform) ctxA
      (endpoint_to "B@efa0" CONNECTED) answerBA empty_desc
      (world [inserted 1 3])
    = ((0, e', requestAB),
       world_after [] [fi_av_insert 5%N [x0a; x0b]])
    ∧ status_ e' = CONNECTED
    ∧ peer_fi_addr_ e' = 3.
Proof.
  destruct (setupConnectionsByPassive_accepts (H := platform) ctxA
              (endpoint_to "B@efa0" CONNECTED) answerBA empty_desc
              (world [inserted 1 3]) (inserted 1 3) []
              eq_refl eq_refl ltac:(discriminate) eq_refl eq_refl)
    as (e' & Hrun & Hst & Hfi & _).
  exists e'. split; [exact Hrun|]. split; [exact Hst|exact Hfi].
Defined.

Lemma handshake_connects_both_sides_witness :
  ∃ eB' wB' eA' wA',
    EfaEndPoint.setupConnectionsByPassive (H := platform) ctxB endpointB
      requestAB empty_desc (world [inserted 1 7])
    = ((0, eB', answerBA), wB')
    ∧ EfaEndPoint.setupConnectionsByActive (H := platform) ctxA
        (endpoint_to "B@efa0" UNCONNECTED)
        (world [replies 0 answerBA; inserted 1 3])
      = ((0, eA'), wA')
    ∧ status_ eB' = CONNECTED ∧ status_ eA' = CONNECTED
    ∧ trace wB' = [fi_av_insert 15%N [xde; xad; xbe; xef]]
    ∧ trace wA' = [sendHandshake "B" requestAB;
                   fi_av_insert 5%N [x0a; x0b]].
Proof.
  exact (handshake_connects_both_sides (H := platform) ctxA ctxB
           (endpoint_to "B@efa0" UNCONNECTED) endpointB empty_desc
           (world [replies 0 answerBA; inserted 1 3]) (world [inserted 1 7])
           (inserted 1 7) (replies 0 answerBA) (inserted 1 3)
           [] [inserted 1 3] []
           eq_refl ltac:(discriminate) eq_refl eq_refl
           ltac:(discriminate) ltac:(discriminate)
           ltac:(discriminate) ltac:(discriminate)
           eq_refl eq_refl eq_refl eq_refl eq_refl eq_refl eq_refl).
Defined.

Lemma doSetupConnection_witness :
  EfaEndPoint.doSetupConnection (H := platform) ctxA
    (endpoint_to "B@efa0" UNCONNECTED) "0a0b" (Some "") (world [inserted 1 3])
  = ((0,
      set_status_ CONNECTED
        (set_peer_fi_addr_ 3 (endpoint_to "B@efa0" UNCONNECTED)),
      Some ""),
     world_after [] [fi_av_insert 5%N [x0a; x0b]])
  ∧ EfaEndPoint.doSetupConnection (H := platform) ctxA
      (endpoint_to "B@efa0" UNCONNECTED) "0a0b" (Some "")
      (world [inserted 0 0])
    = ((@ERR_ENDPOINT platform,
        set_peer_fi_addr_ 0 (endpoint_to "B@efa0" UNCONNECTED),
        Some "Failed to insert peer address into AV"),
       world_after [] [fi_av_insert 5%N [x0a; x0b]]).
Proof.
  split.
  - exact (proj1 (doSetupConnection_outcome (H := platform) ctxA
                    (endpoint_to "B@efa0" UNCONNECTED) "0a0b" (Some "")
                    (world [inserted 1 3]) (inserted 1 3) []
                    ltac:(discriminate) eq_refl) eq_refl).
  - exact (proj1 (proj2 (doSetupConnection_outcome (H := platform) ctxA
                           (endpoint_to "B@efa0" UNCONNECTED) "0a0b" (Some "")
                           (world [inserted 0 0]) (inserted 0 0) []
                           ltac:(discriminate) eq_refl)
                    ltac:(discriminate))).
Defined.

Lemma submitPostSend_posts_each_slice_once_witness :
  ∃ e' rest failed' heap' w',
    EfaEndPoint.submitPostSend (H := platform) ctxA
      (endpoint_to "B@efa0" CONNECTED) [16%N; 32%N; 48%N] [] three_slices
      (world [fails (-11); ok 0; fails (-5)])
    = Some (0, (e', rest, failed', heap', w'))
    ∧ trace w'
      = [fi_write 9%N 1000 64 0 66536 77; fi_write 9%N 2000 64 0 67536 77;
         fi_write 9%N 3000 64 0 68536 77].
Proof.
  destruct (submitPostSend_posts_each_slice_once (H := platform) ctxA
              (endpoint_to "B@efa0" CONNECTED) [16%N; 32%N; 48%N] []
              three_slices (world [fails (-11); ok 0; fails (-5)])
              eq_refl
              ltac:(repeat (constructor; [eexists; reflexivity|]);
                    constructor))
    as (e' & rest & failed' & heap' & w' & Hrun & Htr & _).
  exists e', rest, failed', heap', w'. split; [exact Hrun|exact Htr].
Defined.

Lemma submitPostSend_conserves_slices_witness :
  ∃ e' rest failed' heap' w' newly_failed posted,
    EfaEndPoint.submitPostSend (H := platform) ctxA
      (endpoint_to "B@efa0" CONNECTED) [16%N; 32%N; 48%N] [64%N] three_slices
      (world [fails (-11); ok 0; fails (-5)])
    = Some (0, (e', rest, failed', heap', w'))
    ∧ rest = [16%N]
    ∧ failed' = [64%N] ++ newly_failed
    ∧ [16%N; 32%N; 48%N] ≡ₚ rest ++ newly_failed ++ posted
    ∧ wr_depth_ e' = 0 + Z.of_nat (List.length posted).
Proof.
  destruct (EfaEndPoint.submitPostSend (H := platform) ctxA
              (endpoint_to "B@efa0" CONNECTED) [16%N; 32%N; 48%N] [64%N]
              three_slices (world [fails (-11); ok 0; fails (-5)]))
    as [[rc [[[[e' rest] failed'] heap'] w']]|] eqn:Hrun;
    [|vm_compute in Hrun; discriminate Hrun].
  destruct (submitPostSend_conserves_slices (H := platform) ctxA
              (endpoint_to "B@efa0" CONNECTED) e' [16%N; 32%N; 48%N] [64%N]
              rest failed' three_slices heap'
              (world [fails (-11); ok 0; fails (-5)]) w' rc
              ltac:(repeat (constructor; [eexists; reflexivity|]);
                    constructor)
              Hrun)
    as (newly_failed & posted & Hf & Hperm & Hwr & _).
  vm_compute in Hrun. injection Hrun as <- <- <- <- <- <-.
  eexists _, _, _, _, _, newly_failed, posted.
  split; [reflexivity|]. split; [reflexivity|].
  split; [exact Hf|]. split; [exact Hperm|exact Hwr].
Defined.

Lemma submitPostSend_empty_batch_witness :
  EfaEndPoint.submitPostSend (H := platform) ctxA
    (endpoint_to "B@efa0" CONNECTED) [] [64%N] three_slices (world [])
  = Some (0, (endpoint_to "B@efa0" CONNECTED, [], [64%N], three_slices,
              world []))
  ∧ EfaEndPoint.submitPostSend (H := platform) ctxA
      (endpoint_to "B@efa0" UNCONNECTED) [] [64%N] three_slices
      (world [replies 0 empty_desc])
    = Some (@ERR_REJECT_HANDSHAKE platform,
            (endpoint_to "B@efa0" UNCONNECTED, [], [64%N], three_slices,
             world_after [] [sendHandshake "B" requestAB])).
Proof.
  split.
  - exact (proj1 (submitPostSend_empty_batch (H := platform) ctxA
                    (endpoint_to "B@efa0" CONNECTED) [64%N] three_slices
                    (world [])) eq_refl).
  - exact (proj2 (submitPostSend_empty_batch (H := platform) ctxA
                    (endpoint_to "B@efa0" UNCONNECTED) [64%N] three_slices
                    (world [replies 0 empty_desc])) eq_refl _ _ _ eq_refl).
Defined.


Lemma endpoint_second_lookup_witness :
  let res := EfaContext.endpoint (H := platform) ctxA_with_queue ∅ "B@efa0"
               (world construct_script) in
  res.1.1.1 = Some 1%positive
  ∧ EfaContext.endpoint (H := platform) res.1.1.2 res.1.2 "B@efa0" (world [])
    = ((Some 1%positive, res.1.1.2, res.1.2), world []).
Proof.
  intros res.
  assert (EfaContext.endpoint (H := platform) ctxA_with_queue ∅ "B@efa0"
            (world construct_script)
          = ((Some 1%positive, res.1.1.2, res.1.2), res.2)) as Hrun
    by (vm_compute; reflexivity).
  split; [reflexivity|].
  exact (endpoint_second_lookup_returns_same (H := platform) ctxA_with_queue
           _ ∅ _ "B@efa0" _ _ _ Hrun (world [])).
Defined.

Lemma endpoint_null_result_witness :
  let res := EfaContext.endpoint (H := platform) ctxA_with_queue ∅ "B@efa0"
               (world [fails (-12)]) in
  res.1.1.1 = None
  ∧ res.1.1.2 = ctxA_with_queue ∧ res.1.2 = ∅
  ∧ trace res.2 = [fi_endpoint 4%N 2%N].
Proof.
  intros res.
  assert (EfaContext.endpoint (H := platform) ctxA_with_queue ∅ "B@efa0"
            (world [fails (-12)])
          = ((None, res.1.1.2, res.1.2), res.2)) as Hrun
    by (vm_compute; reflexivity).
  destruct (endpoint_null_result_publishes_nothing (H := platform)
              ctxA_with_queue _ ∅ _ "B@efa0" _ _ Hrun) as [Hctx Heps].
  split; [reflexivity|]. split; [exact Hctx|]. split; [exact Heps|reflexivity].
Defined.

Lemma endpoint_created_witness :
  let res := EfaContext.endpoint (H := platform) ctxA_with_queue ∅ "B@efa0"
               (world construct_script) in
  res.1.1.1 = Some 1%positive
  ∧ (∃ e, res.1.2 !! 1%positive = Some e
          ∧ peer_nic_path_ e = "B@efa0"
          ∧ EfaEndPoint.connected e = false
          ∧ peer_fi_addr_ e = FI_ADDR_UNSPEC)
  ∧ ∃ store1, endpoint_store_ res.1.1.2 = Some store1
              ∧ EfaEndpointStore.get store1 "B@efa0" = Some 1%positive.
Proof.
  intros res.
  assert (EfaContext.endpoint (H := platform) ctxA_with_queue ∅ "B@efa0"
            (world construct_script)
          = ((Some 1%positive, res.1.1.2, res.1.2), res.2)) as Hrun
    by (vm_compute; reflexivity).
  destruct (endpoint_created_is_registered_unconnected (H := platform)
              ctxA_with_queue _ ∅ _ "B@efa0" _ _ _ ∅ eq_refl eq_refl Hrun)
    as (_ & He & _ & store1 & Hst & Hget & _).
  split; [reflexivity|]. split; [exact He|].
  exists store1. split; [exact Hst|exact Hget].
Defined.

(** ** Teardown on concrete inputs *)

Example disconnectAll_store_one :
  let res := EfaEndpointStore.disconnectAll store_one two_endpoints in
  status_ <$> res.2 !! 1%positive = Some UNCONNECTED
  ∧ status_ <$> res.2 !! 2%positive = Some CONNECTED.
Proof. split; reflexivity. Qed.

Example deconstruct_ctx_full :
  let res := EfaContext.deconstruct (H := platform) ctx_full two_endpoints
               (world []) in
  res.1.1.2 = torn_down ctx_full
  ∧ trace res.2
    = [fi_close 21%N; fi_close 6%N; fi_close 7%N; fi_close 5%N; fi_close 4%N;
       fi_close 3%N; fi_freeinfo 2%N; fi_freeinfo 1%N]
  ∧ status_ <$> res.1.2 !! 1%positive = Some UNCONNECTED.
Proof. vm_compute. repeat split. Qed.

(** The context that the refused completion queue left half-built is
    released by its destructor. *)
Example destructor_after_cq_failure :
  let failed := EfaContext.construct (H := platform)
                  (EfaContext.new "A" "efa0") 1 1 1 0 128 64
                  (world [ok 1; ok 2; ok 3; ok 4; ok 5; fails (-12)]) in
  let res := EfaContext.destructor (H := platform) failed.1.2 ∅ (world []) in
  res.1.1 = torn_down failed.1.2
  ∧ trace res.2
    = [fi_close 5%N; fi_close 4%N; fi_close 3%N; fi_freeinfo 2%N;
       fi_freeinfo 1%N].
Proof. vm_compute. repeat split. Qed.
